(** * The card-appraisal capture workflow (CardAppraisalApp)

    A shallow embedding of the React component [CardAppraisalApp]: its
    state hooks, its event handlers, the continuations of its three
    asynchronous operations (FileReader, canvas.toBlob, fetch) and the
    gating that the rendered buttons put in front of the handlers.

    Conventions.
    - A JavaScript number is an exact rational; [None] stands for a value
      that is not a finite number (NaN, an infinity, or [undefined] used
      in arithmetic).  Rounding of doubles is not modelled.
    - The component state and the parts of the browser the handlers touch
      (toasts, blob-URL store, outbound requests, pending callbacks) are
      one record, [World], threaded through every handler.
    - A handler reads the state of the render it was created in; since
      React re-renders between two discrete events, that is the [World]
      the handler is applied to.
    - A button passes a click on to its [onClick] only while it is rendered
      and not disabled.
    - Pending callbacks of one kind fire in the order they were queued. *)

From Stdlib Require Import QArith Qround.
From stdpp Require Import gmap strings list fin_maps pretty.

Local Open Scope string_scope.
Local Open Scope Z_scope.

(** ** Data *)

(** JavaScript numbers. *)
Definition num := option Q.

(** Products and quotients are exact here; the code rounds each one to
    a double, so a scaled coordinate of the model is the code's value up
    to that rounding.  Canvas sizes do not go through them. *)
Definition num_mul (a b : num) : num :=
  match a, b with
  | Some p, Some q => Some (p * q)%Q
  | _, _ => None
  end.

(** [n / d] for two integer-valued properties; a zero divisor gives an
    infinity or NaN. *)
Definition num_ratio (n d : Z) : num :=
  if d =? 0 then None else Some (inject_Z n / inject_Z d)%Q.

(** Integer part, rounding toward zero. *)
Definition Qtrunc (q : Q) : Z := Z.quot (Qnum q) (Z.pos (Qden q)).

(** react-image-crop's [Crop]; every numeric field is optional. *)
Inductive CropUnit := px | percent.

Record Crop := {
  crop_unit : option CropUnit;
  crop_x : num;
  crop_y : num;
  crop_width : num;
  crop_height : num;
  crop_aspect : num
}.

(** The rendered [<img>] the selection is drawn over. *)
Record HTMLImageElement := {
  naturalWidth : Z;
  naturalHeight : Z;
  img_width : Z;
  img_height : Z
}.

(** One successful [drawImage(image, sx, sy, sw, sh, dx, dy, dw, dh)]. *)
Record DrawOp := {
  draw_image : HTMLImageElement;
  draw_sx : Q; draw_sy : Q; draw_sw : Q; draw_sh : Q;
  draw_dx : Q; draw_dy : Q; draw_dw : Q; draw_dh : Q
}.

Record Canvas := {
  canvas_width : Z;
  canvas_height : Z;
  canvas_ops : list DrawOp
}.

Inductive BlobBody :=
  | RawBytes (bs : list Byte.byte)
  | Bitmap (w h : Z) (ops : list DrawOp).

Record Blob := { blob_body : BlobBody; blob_type : string }.

Record File := {
  file_bits : list Blob;
  file_name : string;
  file_type : string
}.

(** Pixel dimensions of an encoded bitmap. *)
Definition blob_dims (b : Blob) : option (Z * Z) :=
  match blob_body b with
  | Bitmap w h _ => Some (w, h)
  | RawBytes _ => None
  end.

Record UploadedImage := { file : File; preview : string }.

Record Grades := { centering : Q; edges : Q; corners : Q; surface : Q }.

Record AppraisalResult := {
  cardName : string;
  grades : Grades;
  edition : string;
  setname : string;
  overallGrade : Q;
  estimatedValue : Q
}.

Inductive ToastVariant := default_variant | destructive.

Record Toast := {
  title : string;
  description : string;
  variant : ToastVariant
}.

Record Step := { key : string; label : string; step_description : string }.

Definition steps : list Step := [
  {| key := "front"; label := "Upload Front of Card";
     step_description := "Take a clear photo of the front side" |};
  {| key := "back"; label := "Upload Back of Card";
     step_description := "Take a clear photo of the back side" |};
  {| key := "topLeft"; label := "Upload Top-Left Corner";
     step_description := "Focus on the top-left corner for detail" |};
  {| key := "bottomRight"; label := "Upload Bottom-Right Corner";
     step_description := "Focus on the bottom-right corner for detail" |}
].

(** What [fetch] followed by [response.json()] can deliver: a rejected
    promise, or a response with a status and a body that parses or not. *)
Inductive FetchOutcome :=
  | NetworkError
  | Response (status : Z) (body : option AppraisalResult).

Definition response_ok (status : Z) : bool :=
  (200 <=? status) && (status <=? 299).

(** ** The world: component state and browser state *)

Record World := mkWorld {
  (* useState / useRef *)
  currentStep : Z;
  images : gmap string UploadedImage;
  isLoading : bool;
  result : option AppraisalResult;
  showCropper : bool;
  crop : Crop;
  completedCrop : option Crop;
  cropImageSrc : option string;
  imageRef : option HTMLImageElement;
  pendingStepKey : option string;
  (* browser *)
  toasts : list Toast;
  objectURLs : gset string;
  urlCounter : nat;
  requests : list (list (string * File));
  awaiting : nat;
  readers : list (string * File);
  encoders : list (string * option Blob);
  console : list string
}.

Definition setCurrentStep (v : Z) (w : World) : World :=
  mkWorld v (images w) (isLoading w) (result w) (showCropper w) (crop w)
    (completedCrop w) (cropImageSrc w) (imageRef w) (pendingStepKey w)
    (toasts w) (objectURLs w) (urlCounter w) (requests w) (awaiting w)
    (readers w) (encoders w) (console w).

Definition setImages (f : gmap string UploadedImage → gmap string UploadedImage)
    (w : World) : World :=
  mkWorld (currentStep w) (f (images w)) (isLoading w) (result w)
    (showCropper w) (crop w) (completedCrop w) (cropImageSrc w) (imageRef w)
    (pendingStepKey w) (toasts w) (objectURLs w) (urlCounter w) (requests w)
    (awaiting w) (readers w) (encoders w) (console w).

Definition setIsLoading (v : bool) (w : World) : World :=
  mkWorld (currentStep w) (images w) v (result w) (showCropper w) (crop w)
    (completedCrop w) (cropImageSrc w) (imageRef w) (pendingStepKey w)
    (toasts w) (objectURLs w) (urlCounter w) (requests w) (awaiting w)
    (readers w) (encoders w) (console w).

Definition setResult (v : option AppraisalResult) (w : World) : World :=
  mkWorld (currentStep w) (images w) (isLoading w) v (showCropper w) (crop w)
    (completedCrop w) (cropImageSrc w) (imageRef w) (pendingStepKey w)
    (toasts w) (objectURLs w) (urlCounter w) (requests w) (awaiting w)
    (readers w) (encoders w) (console w).

Definition setShowCropper (v : bool) (w : World) : World :=
  mkWorld (currentStep w) (images w) (isLoading w) (result w) v (crop w)
    (completedCrop w) (cropImageSrc w) (imageRef w) (pendingStepKey w)
    (toasts w) (objectURLs w) (urlCounter w) (requests w) (awaiting w)
    (readers w) (encoders w) (console w).

Definition setCrop (v : Crop) (w : World) : World :=
  mkWorld (currentStep w) (images w) (isLoading w) (result w) (showCropper w)
    v (completedCrop w) (cropImageSrc w) (imageRef w) (pendingStepKey w)
    (toasts w) (objectURLs w) (urlCounter w) (requests w) (awaiting w)
    (readers w) (encoders w) (console w).

Definition setCompletedCrop (v : option Crop) (w : World) : World :=
  mkWorld (currentStep w) (images w) (isLoading w) (result w) (showCropper w)
    (crop w) v (cropImageSrc w) (imageRef w) (pendingStepKey w)
    (toasts w) (objectURLs w) (urlCounter w) (requests w) (awaiting w)
    (readers w) (encoders w) (console w).

Definition setCropImageSrc (v : option string) (w : World) : World :=
  mkWorld (currentStep w) (images w) (isLoading w) (result w) (showCropper w)
    (crop w) (completedCrop w) v (imageRef w) (pendingStepKey w)
    (toasts w) (objectURLs w) (urlCounter w) (requests w) (awaiting w)
    (readers w) (encoders w) (console w).

Definition setImageRef (v : option HTMLImageElement) (w : World) : World :=
  mkWorld (currentStep w) (images w) (isLoading w) (result w) (showCropper w)
    (crop w) (completedCrop w) (cropImageSrc w) v (pendingStepKey w)
    (toasts w) (objectURLs w) (urlCounter w) (requests w) (awaiting w)
    (readers w) (encoders w) (console w).

Definition setPendingStepKey (v : option string) (w : World) : World :=
  mkWorld (currentStep w) (images w) (isLoading w) (result w) (showCropper w)
    (crop w) (completedCrop w) (cropImageSrc w) (imageRef w) v
    (toasts w) (objectURLs w) (urlCounter w) (requests w) (awaiting w)
    (readers w) (encoders w) (console w).

(** [toast({...})]: the notice is appended to the notification surface. *)
Definition toast (t : Toast) (w : World) : World :=
  mkWorld (currentStep w) (images w) (isLoading w) (result w) (showCropper w)
    (crop w) (completedCrop w) (cropImageSrc w) (imageRef w) (pendingStepKey w)
    (toasts w ++ [t]) (objectURLs w) (urlCounter w) (requests w) (awaiting w)
    (readers w) (encoders w) (console w).

(** [URL.createObjectURL(blob)]: a fresh URL, live until revoked. *)
Definition createObjectURL (w : World) : string * World :=
  let url := "blob:" +:+ pretty (urlCounter w) in
  (url,
   mkWorld (currentStep w) (images w) (isLoading w) (result w) (showCropper w)
     (crop w) (completedCrop w) (cropImageSrc w) (imageRef w)
     (pendingStepKey w) (toasts w) ({[url]} ∪ objectURLs w)
     (S (urlCounter w)) (requests w) (awaiting w) (readers w) (encoders w)
     (console w)).

Definition revokeObjectURL (url : string) (w : World) : World :=
  mkWorld (currentStep w) (images w) (isLoading w) (result w) (showCropper w)
    (crop w) (completedCrop w) (cropImageSrc w) (imageRef w) (pendingStepKey w)
    (toasts w) (objectURLs w ∖ {[url]}) (urlCounter w) (requests w)
    (awaiting w) (readers w) (encoders w) (console w).

(** [fetch(url, {method: 'POST', body})]: the request leaves, its
    settlement is awaited. *)
Definition fetch (body : list (string * File)) (w : World) : World :=
  mkWorld (currentStep w) (images w) (isLoading w) (result w) (showCropper w)
    (crop w) (completedCrop w) (cropImageSrc w) (imageRef w) (pendingStepKey w)
    (toasts w) (objectURLs w) (urlCounter w) (requests w ++ [body])
    (S (awaiting w)) (readers w) (encoders w) (console w).

Definition setAwaiting (n : nat) (w : World) : World :=
  mkWorld (currentStep w) (images w) (isLoading w) (result w) (showCropper w)
    (crop w) (completedCrop w) (cropImageSrc w) (imageRef w) (pendingStepKey w)
    (toasts w) (objectURLs w) (urlCounter w) (requests w) n (readers w)
    (encoders w) (console w).

Definition setReaders (v : list (string * File)) (w : World) : World :=
  mkWorld (currentStep w) (images w) (isLoading w) (result w) (showCropper w)
    (crop w) (completedCrop w) (cropImageSrc w) (imageRef w) (pendingStepKey w)
    (toasts w) (objectURLs w) (urlCounter w) (requests w) (awaiting w) v
    (encoders w) (console w).

Definition setEncoders (v : list (string * option Blob)) (w : World) : World :=
  mkWorld (currentStep w) (images w) (isLoading w) (result w) (showCropper w)
    (crop w) (completedCrop w) (cropImageSrc w) (imageRef w) (pendingStepKey w)
    (toasts w) (objectURLs w) (urlCounter w) (requests w) (awaiting w)
    (readers w) v (console w).

Definition console_error (msg : string) (w : World) : World :=
  mkWorld (currentStep w) (images w) (isLoading w) (result w) (showCropper w)
    (crop w) (completedCrop w) (cropImageSrc w) (imageRef w) (pendingStepKey w)
    (toasts w) (objectURLs w) (urlCounter w) (requests w) (awaiting w)
    (readers w) (encoders w) (console w ++ [msg]).

(** The state the component mounts with. *)
Definition initial : World :=
  mkWorld 0 ∅ false None false
    {| crop_unit := Some percent; crop_x := None; crop_y := None;
       crop_width := Some (50 # 1)%Q; crop_height := None;
       crop_aspect := None |}
    None None None None
    [] ∅ 0%nat [] 0%nat [] [] [].

(** ** The crop engine *)

(** JavaScript truthiness of a [string | null] value. *)
Definition truthy (s : option string) : bool :=
  match s with
  | Some s => negb (String.eqb s "")
  | None => false
  end.

Definition startsWith (s p : string) : bool := String.prefix p s.

(** Assigning a number to [canvas.width] / [canvas.height]: conversion to
    [unsigned long] (not finite gives 0, otherwise truncate and wrap
    modulo 2^32), then the reflection rule that falls back to the default
    of the attribute above 2147483647. *)
Definition setCanvasDim (dflt : Z) (v : num) : Z :=
  match v with
  | None => 0
  | Some q =>
      let n := Qtrunc q mod 2 ^ 32 in
      if n <=? 2147483647 then n else dflt
  end.

(** [ctx.drawImage] with nine arguments paints nothing when an argument is
    not finite or when the source rectangle has a zero side. *)
Definition drawImage (img : HTMLImageElement)
    (sx sy sw sh dx dy dw dh : num) (c : Canvas) : Canvas :=
  let op :=
    sx ← sx; sy ← sy; sw ← sw; sh ← sh;
    dx ← dx; dy ← dy; dw ← dw; dh ← dh;
    if Qeq_bool sw 0 || Qeq_bool sh 0 then None
    else Some {| draw_image := img;
                 draw_sx := sx; draw_sy := sy; draw_sw := sw; draw_sh := sh;
                 draw_dx := dx; draw_dy := dy; draw_dw := dw; draw_dh := dh |} in
  match op with
  | Some o => {| canvas_width := canvas_width c;
                 canvas_height := canvas_height c;
                 canvas_ops := canvas_ops c ++ [o] |}
  | None => c
  end.

(** [canvas.toBlob(cb, type)] hands [null] to the callback when the canvas
    has no pixels. *)
Definition toBlob (c : Canvas) (type : string) : option Blob :=
  if (canvas_width c =? 0) || (canvas_height c =? 0) then None
  else Some {| blob_body := Bitmap (canvas_width c) (canvas_height c)
                              (canvas_ops c);
               blob_type := type |}.

(** The canvas [handleCropDone] builds from the completed selection and
    the displayed image, once a 2d context was obtained. *)
Definition cropCanvas (completedCrop : Crop) (img : HTMLImageElement) : Canvas :=
  let scaleX := num_ratio (naturalWidth img) (img_width img) in
  let scaleY := num_ratio (naturalHeight img) (img_height img) in
  let canvas :=
    {| canvas_width := setCanvasDim 300 (crop_width completedCrop);
       canvas_height := setCanvasDim 150 (crop_height completedCrop);
       canvas_ops := [] |} in
  drawImage img
    (num_mul (crop_x completedCrop) scaleX)
    (num_mul (crop_y completedCrop) scaleY)
    (num_mul (crop_width completedCrop) scaleX)
    (num_mul (crop_height completedCrop) scaleY)
    (Some 0%Q) (Some 0%Q)
    (crop_width completedCrop) (crop_height completedCrop)
    canvas.

(** ** Event handlers *)

Definition invalid_file_toast : Toast :=
  {| title := "Invalid file";
     description := "Please select an image file.";
     variant := destructive |}.

(** [files] is [event.target.files]; a valid file starts a FileReader whose
    [onload] closure keeps [stepKey]. *)
Definition handleFileSelect (stepKey : string) (files : option (list File))
    (w : World) : World :=
  let file := files ≫= head in
  match file with
  | None => toast invalid_file_toast w
  | Some f =>
      if negb (startsWith (file_type f) "image/")
      then toast invalid_file_toast w
      else setReaders (readers w ++ [(stepKey, f)]) w
  end.

(** [reader.onload], with [reader.result] the data URL that was read. *)
Definition reader_onload (stepKey : string) (result : string) (w : World) : World :=
  setShowCropper true
    (setPendingStepKey (Some stepKey) (setCropImageSrc (Some result) w)).

Definition onImageLoaded (img : HTMLImageElement) (w : World) : World :=
  setImageRef (Some img) w.

(** [ctx2d] tells whether [canvas.getContext('2d')] returned a context.
    The callback given to [toBlob] keeps the [pendingStepKey] of this
    render; it is queued with the blob it will receive. *)
Definition handleCropDone (ctx2d : bool) (w : World) : World :=
  match completedCrop w, imageRef w, pendingStepKey w with
  | Some c, Some img, Some k =>
      if String.eqb k "" then w
      else if negb ctx2d then w
      else setEncoders (encoders w ++ [(k, toBlob (cropCanvas c img) "image/jpeg")]) w
  | _, _, _ => w
  end.

Definition toBlob_callback (pendingStepKey : string) (blob : option Blob)
    (w : World) : World :=
  match blob with
  | Some b =>
      let '(preview, w) := createObjectURL w in
      let file := {| file_bits := [b]; file_name := "cropped.jpg";
                     file_type := "image/jpeg" |} in
      toast {| title := "Image cropped";
               description := pendingStepKey +:+ " image cropped successfully.";
               variant := default_variant |}
        (setPendingStepKey None
          (setCropImageSrc None
            (setShowCropper false
              (setImages
                 (λ prev, <[pendingStepKey := {| file := file; preview := preview |}]> prev)
                 w))))
  | None => w
  end.

Definition uploaded (k : string) (w : World) : bool :=
  match images w !! k with Some _ => true | None => false end.

Definition allImagesUploaded (w : World) : bool :=
  uploaded "front" w && uploaded "back" w
  && uploaded "topLeft" w && uploaded "bottomRight" w.

Definition appraisal_failed_toast : Toast :=
  {| title := "Appraisal failed";
     description :=
       "There was an error processing your request. Please try again.";
     variant := destructive |}.

(** The [catch] and [finally] blocks of [handleAppraise]. *)
Definition appraise_catch (w : World) : World :=
  console_error "Appraisal error:" (toast appraisal_failed_toast w).

Definition appraise_finally (w : World) : World := setIsLoading false w.

(** [handleAppraise] up to its first [await]: the guard, the two state
    updates and the request.  A missing slot past the guard would raise
    inside [try]. *)
Definition handleAppraise (w : World) : World :=
  if negb (allImagesUploaded w) then w
  else
    let w1 := setResult None (setIsLoading true w) in
    match images w !! "front", images w !! "back",
          images w !! "topLeft", images w !! "bottomRight" with
    | Some front, Some back, Some topLeft, Some bottomRight =>
        fetch [("front", file front); ("back", file back);
               ("topLeft", file topLeft); ("bottomRight", file bottomRight)] w1
    | _, _, _, _ => appraise_finally (appraise_catch w1)
    end.

Section NumberFormat.

(** How a number is written inside a template literal. *)
Variable Number_toString : Q → string.

(** [handleAppraise] from the point where the awaited request settles. *)
Definition appraise_resume (o : FetchOutcome) (w : World) : World :=
  appraise_finally
    match o with
    | NetworkError => appraise_catch w
    | Response status body =>
        if negb (response_ok status) then appraise_catch w
        else match body with
             | None => appraise_catch w
             | Some data =>
                 toast {| title := "Appraisal complete!";
                          description :=
                            "Your card has been appraised. Overall grade: "
                            +:+ Number_toString (overallGrade data);
                          variant := default_variant |}
                   (setResult (Some data) w)
             end
    end.

End NumberFormat.

Definition handleReset (w : World) : World :=
  let w1 :=
    foldl (λ acc image,
             if truthy (Some (preview image))
             then revokeObjectURL (preview image) acc else acc)
          w ((map_to_list (images w)).*2) in
  toast {| title := "Form reset";
           description := "You can now start a new appraisal.";
           variant := default_variant |}
    (setCurrentStep 0
      (setIsLoading false (setResult None (setImages (λ _, ∅) w1)))).

Definition handleNext (w : World) : World :=
  if currentStep w <? Z.of_nat (length steps) - 1
  then setCurrentStep (currentStep w + 1) w
  else w.

Definition handlePrevious (w : World) : World :=
  if currentStep w >? 0
  then setCurrentStep (currentStep w - 1) w
  else w.

(** ** What is on screen *)

(** [steps[currentStep]]; the render throws on [undefined]. *)
Definition currentStepData (w : World) : option Step :=
  if currentStep w <? 0 then None else steps !! Z.to_nat (currentStep w).

Definition isCurrentStepComplete (w : World) : bool :=
  match currentStepData w with
  | Some d => uploaded (key d) w
  | None => false
  end.

Definition isLastStep (w : World) : bool :=
  currentStep w =? Z.of_nat (length steps) - 1.


(** The render went through: [currentStepData.key] could be read. *)
Definition mounted (w : World) : bool :=
  match currentStepData w with Some _ => true | None => false end.

(** The crop modal is on screen. *)
Definition cropperVisible (w : World) : bool :=
  mounted w && showCropper w && truthy (cropImageSrc w).

(** A click reaches [onClick] only when the button is rendered and not
    disabled. *)
Definition click (rendered disabled : bool) (onClick : World → World)
    (w : World) : World :=
  if rendered && negb disabled then onClick w else w.


Definition hasResult (w : World) : bool :=
  match result w with Some _ => true | None => false end.

Definition previousDisabled (w : World) : bool := currentStep w =? 0.

Definition nextDisabled (w : World) : bool :=
  negb (isCurrentStepComplete w) || isLastStep w.

Definition clickPrevious : World → World :=
  λ w, click (mounted w) (previousDisabled w) handlePrevious w.

Definition clickNext : World → World :=
  λ w, click (mounted w) (nextDisabled w) handleNext w.

Definition clickAppraise : World → World :=
  λ w, click (mounted w && allImagesUploaded w) (isLoading w) handleAppraise w.

Definition clickReset : World → World :=
  λ w, click (mounted w && (allImagesUploaded w || hasResult w)) false
         handleReset w.

Definition clickCancel : World → World :=
  λ w, click (cropperVisible w) false (setShowCropper false) w.

Definition clickDone (ctx2d : bool) : World → World :=
  λ w, click (cropperVisible w) false (handleCropDone ctx2d) w.

(** The file input of the current step. *)
Definition selectFile (files : option (list File)) (w : World) : World :=
  match currentStepData w with
  | Some d => handleFileSelect (key d) files w
  | None => w
  end.

(** ** The event loop *)

Inductive Event :=
  | SelectFile (files : option (list File))
  | ReaderLoad (result : string)
  | ImageLoad (img : HTMLImageElement)
  | CropChange (c : Crop)
  | CropComplete (c : Crop)
  | ClickCancel
  | ClickDone (ctx2d : bool)
  | BlobReady
  | ClickPrevious
  | ClickNext
  | ClickAppraise
  | FetchSettled (o : FetchOutcome)
  | ClickReset.

Section Machine.

Variable Number_toString : Q → string.

(** Pending callbacks run oldest first. *)
Definition step (w : World) (e : Event) : World :=
  match e with
  | SelectFile files => selectFile files w
  | ReaderLoad res =>
      match readers w with
      | (stepKey, _) :: rest => reader_onload stepKey res (setReaders rest w)
      | [] => w
      end
  | ImageLoad img =>
      if cropperVisible w then onImageLoaded img w else w
  | CropChange c =>
      if cropperVisible w then setCrop c w else w
  | CropComplete c =>
      if cropperVisible w then setCompletedCrop (Some c) w else w
  | ClickCancel => clickCancel w
  | ClickDone ctx2d => clickDone ctx2d w
  | BlobReady =>
      match encoders w with
      | (k, blob) :: rest => toBlob_callback k blob (setEncoders rest w)
      | [] => w
      end
  | ClickPrevious => clickPrevious w
  | ClickNext => clickNext w
  | ClickAppraise => clickAppraise w
  | FetchSettled o =>
      match awaiting w with
      | S n => appraise_resume Number_toString o (setAwaiting n w)
      | O => w
      end
  | ClickReset => clickReset w
  end.

Definition run (es : list Event) (w : World) : World := foldl step w es.

End Machine.

(** Live preview handles against occupied slots. *)
Definition liveHandles (w : World) : nat := size (objectURLs w).
Definition occupiedSlots (w : World) : nat := size (images w).

(** ** Sample inputs *)

Definition jpeg : File :=
  {| file_bits := [{| blob_body := RawBytes []; blob_type := "image/jpeg" |}];
     file_name := "card.jpg"; file_type := "image/jpeg" |}.

Definition pdf : File :=
  {| file_bits := [{| blob_body := RawBytes []; blob_type := "application/pdf" |}];
     file_name := "card.pdf"; file_type := "application/pdf" |}.

(** A 2000x1000 photo shown at 1000x500. *)
Definition photo : HTMLImageElement :=
  {| naturalWidth := 2000; naturalHeight := 1000;
     img_width := 1000; img_height := 500 |}.

Definition pixelCrop (x y w h : Z) : Crop :=
  {| crop_unit := Some px;
     crop_x := Some (inject_Z x); crop_y := Some (inject_Z y);
     crop_width := Some (inject_Z w); crop_height := Some (inject_Z h);
     crop_aspect := None |}.

(** The selection that covers all of [photo] as displayed. *)
Definition wholePhoto : Crop := pixelCrop 0 0 1000 500.

(** Picking a photo and selecting all of it in the crop modal ... *)
Definition selecting : list Event :=
  [SelectFile (Some [jpeg]); ReaderLoad "data:image/jpeg;base64,AA";
   ImageLoad photo; CropComplete wholePhoto].

(** ... and pressing Done. *)
Definition capture : list Event := selecting ++ [ClickDone true; BlobReady].

Definition plainNumber (q : Q) : string := pretty (Qtrunc q).

Definition sampleResult : AppraisalResult :=
  {| cardName := "Pikachu";
     grades := {| centering := 8; edges := 9; corners := 8; surface := 9 |};
     edition := "1st"; setname := "Base"; overallGrade := 8;
     estimatedValue := 42 |}.

(** The crop modal open on [photo], all of it selected. *)
Definition cropping : World := run plainNumber selecting initial.

(** The front photo captured, then captured again. *)
Definition frontTwice : World := run plainNumber (capture ++ capture) initial.

(** All four photos captured, one step after the other. *)
Definition fourCaptures : list Event :=
  capture ++ [ClickNext] ++ capture ++ [ClickNext]
  ++ capture ++ [ClickNext] ++ capture.

Definition filled : World := run plainNumber fourCaptures initial.

(** [filled] with the appraisal requested and not yet answered. *)
Definition submitting : World := run plainNumber [ClickAppraise] filled.

(** [filled] showing the result of an earlier appraisal. *)
Definition appraised : World :=
  run plainNumber
    [ClickAppraise; FetchSettled (Response 200 (Some sampleResult))] filled.

(** A whole session: the front photo is retaken once, the other three
    slots are filled, the card is appraised, and the form is reset. *)
Definition session : list Event :=
  capture ++ fourCaptures
  ++ [ClickAppraise; FetchSettled (Response 200 (Some sampleResult));
      ClickReset].

(** A selection is completed and the modal cancelled; the next photo is
    committed without touching the selection. *)
Definition cancelThenCommit : list Event :=
  selecting
  ++ [ClickCancel; SelectFile (Some [jpeg]);
      ReaderLoad "data:image/jpeg;base64,BB"; ImageLoad photo;
      ClickDone true; BlobReady].

(** ** Properties as the specification words them *)

(** Pixel dimensions of the image held in slot [k]. *)
Definition committedDims (k : string) (w : World) : option (Z * Z) :=
  i ← images w !! k; b ← head (file_bits (file i)); blob_dims b.

(** Specification, crop engine: the cropped image has the selection's
    width and height scaled from displayed to native pixels. *)
Definition scaledSelectionDims (c : Crop) (img : HTMLImageElement)
    : option (Z * Z) :=
  sw ← num_mul (crop_width c) (num_ratio (naturalWidth img) (img_width img));
  sh ← num_mul (crop_height c) (num_ratio (naturalHeight img) (img_height img));
  Some (Qtrunc sw, Qtrunc sh).

(** Specification, crop engine: cancel discards source image, pending slot
    and selection, and leaves the slots alone. *)
Definition cancelDiscardsSubFlow (w : World) : Prop :=
  cropImageSrc (clickCancel w) = None
  ∧ pendingStepKey (clickCancel w) = None
  ∧ completedCrop (clickCancel w) = None
  ∧ images (clickCancel w) = images w.

(** At most one request is awaited, and one is awaited exactly while the
    loading flag is up. *)
Definition loadingWhileInFlight (w : World) : Prop :=
  (awaiting w = 0%nat ∧ isLoading w = false)
  ∨ (awaiting w = 1%nat ∧ isLoading w = true).

(** Specification, controller: with a submission in flight, a second
    submit is a no-op. *)
Definition secondSubmitNoop (w : World) : Prop :=
  (0 < awaiting w)%nat → clickAppraise w = w.

(** Four photos, Appraise, Reset while the request is pending, and four
    new photos. *)
Definition resetWhilePending : World :=
  run plainNumber
    (fourCaptures ++ [ClickAppraise; ClickReset] ++ fourCaptures) initial.

(** A transport failure or a response outside 2xx. *)
Definition submissionFailed (o : FetchOutcome) : bool :=
  match o with
  | NetworkError => true
  | Response status _ => negb (response_ok status)
  end.

(** ** Progress indicator *)

(** [Math.round]: to the nearest integer, halves upward. *)
Definition Math_round (q : Q) : Z := Qfloor (q + (1 # 2))%Q.

(** The figure shown as "n% Complete". *)
Definition progressPercent (w : World) : Z :=
  Math_round
    (inject_Z (currentStep w + 1) / inject_Z (Z.of_nat (length steps)) * 100)%Q.

(** ** Invariants of the workflow *)

Definition stepKeys : list string := key <$> steps.

(** The step index is one of the four steps and every step before it has
    its photo. *)
Definition earlierStepsFilled (w : World) : Prop :=
  0 ≤ currentStep w ≤ 3
  ∧ ∀ (n : nat) (d : Step),
      steps !! n = Some d → Z.of_nat n < currentStep w →
      uploaded (key d) w = true.

(** Slots, pending reads, the pending slot of the crop modal and pending
    encodings are all keyed by one of the four steps. *)
Definition slotKeysKnown (w : World) : Prop :=
  (∀ k, is_Some (images w !! k) → k ∈ stepKeys)
  ∧ (∀ k f, (k, f) ∈ readers w → k ∈ stepKeys)
  ∧ (∀ k, pendingStepKey w = Some k → k ∈ stepKeys)
  ∧ (∀ k b, (k, b) ∈ encoders w → k ∈ stepKeys).

(** Live URLs were all handed out by [createObjectURL], every held image
    shows a live one, and there are at least as many as occupied slots. *)
Definition handlesSound (w : World) : Prop :=
  (∀ u, u ∈ objectURLs w →
        ∃ n, (n < urlCounter w)%nat ∧ u = "blob:" +:+ pretty n)
  ∧ (∀ k i, images w !! k = Some i → preview i ∈ objectURLs w)
  ∧ (occupiedSlots w ≤ liveHandles w)%nat.




(** The modal open on [photo] with a selection that has a width only, as
    the initial [crop] has. *)
Definition widthOnly : Crop :=
  {| crop_unit := Some percent; crop_x := None; crop_y := None;
     crop_width := Some (50 # 1)%Q; crop_height := None;
     crop_aspect := None |}.

Definition croppingWidthOnly : World :=
  run plainNumber
    [SelectFile (Some [jpeg]); ReaderLoad "data:image/jpeg;base64,AA";
     ImageLoad photo; CropComplete widthOnly] initial.

(** The events whose handlers may write the step index, the slots or the
    blob-URL store. *)
Definition touchesSlots (e : Event) : bool :=
  match e with
  | BlobReady | ClickPrevious | ClickNext | ClickReset => true
  | _ => false
  end.

(** The crop modal open on a photo that was just read, before any
    selection was completed. *)
Definition justOpened : World :=
  run plainNumber
    [SelectFile (Some [jpeg]); ReaderLoad "data:image/jpeg;base64,AA"]
    initial.

(** The events whose handlers may write the result or the loading flag. *)
Definition touchesResult (e : Event) : bool :=
  match e with
  | ClickAppraise | FetchSettled _ | ClickReset => true
  | _ => false
  end.

(** * Proofs *)

(** ** Numbers *)

Lemma Qtrunc_nonneg (q : Q) : (0 <= q)%Q → Qtrunc q = Qfloor q.
Proof.
  destruct q as [n d]. unfold Qle, Qtrunc, Qfloor. simpl. intros H.
  apply Z.quot_div_nonneg; lia.
Qed.

(** A selection side between 1 and 2^31-1 display pixels becomes the
    canvas side, rounded down. *)
Lemma setCanvasDim_in_range (dflt : Z) (q : Q) :
  (1 <= q)%Q → (q <= 2147483647)%Q →
  setCanvasDim dflt (Some q) = Qfloor q ∧ 1 ≤ Qfloor q ≤ 2147483647.
Proof.
  intros Hlo Hhi.
  assert (H1 : 1 ≤ Qfloor q).
  { change 1 with (Qfloor 1). by apply Qfloor_resp_le. }
  assert (H2 : Qfloor q ≤ 2147483647).
  { change 2147483647 with (Qfloor 2147483647). by apply Qfloor_resp_le. }
  split; [|lia]. unfold setCanvasDim.
  rewrite Qtrunc_nonneg by (eapply Qle_trans; [|exact Hlo]; done).
  rewrite Z.mod_small by lia.
  by rewrite (proj2 (Z.leb_le _ _) H2).
Qed.

Lemma scaled_nonzero (q : Q) (n d : Z) :
  (1 <= q)%Q → n ≠ 0 → d ≠ 0 →
  Qeq_bool (q * (inject_Z n / inject_Z d)) 0 = false.
Proof.
  intros Hq Hn Hd.
  destruct (Qeq_bool _ _) eqn:E; [|done]. exfalso.
  apply Qeq_bool_iff in E.
  apply Qmult_integral in E as [E|E].
  - rewrite E in Hq. by apply Qle_not_lt in Hq.
  - unfold Qdiv in E. apply Qmult_integral in E as [E|E].
    + apply Hn. unfold Qeq in E. simpl in E. lia.
    + assert (Hd' : ¬ (inject_Z d == 0)%Q).
      { unfold Qeq. simpl. lia. }
      apply Hd'. rewrite <- (Qinv_involutive (inject_Z d)). by rewrite E.
Qed.

(** ** The crop engine *)

(** What [cropCanvas] paints and how large it is, for a selection with all
    four sides given and an image that has a size on screen. *)
Lemma cropCanvas_spec (c : Crop) (img : HTMLImageElement) (x y cw ch : Q) :
  crop_x c = Some x → crop_y c = Some y →
  crop_width c = Some cw → crop_height c = Some ch →
  (1 <= cw)%Q → (cw <= 2147483647)%Q → (1 <= ch)%Q → (ch <= 2147483647)%Q →
  naturalWidth img ≠ 0 → naturalHeight img ≠ 0 →
  img_width img ≠ 0 → img_height img ≠ 0 →
  let scaleX := (inject_Z (naturalWidth img) / inject_Z (img_width img))%Q in
  let scaleY := (inject_Z (naturalHeight img) / inject_Z (img_height img))%Q in
  toBlob (cropCanvas c img) "image/jpeg" =
    Some {| blob_body :=
              Bitmap (Qfloor cw) (Qfloor ch)
                [{| draw_image := img;
                    draw_sx := (x * scaleX)%Q; draw_sy := (y * scaleY)%Q;
                    draw_sw := (cw * scaleX)%Q; draw_sh := (ch * scaleY)%Q;
                    draw_dx := 0%Q; draw_dy := 0%Q;
                    draw_dw := cw; draw_dh := ch |}];
            blob_type := "image/jpeg" |}.
Proof.
  intros Hx Hy Hw Hh Hw1 Hw2 Hh1 Hh2 HnW HnH HdW HdH scaleX scaleY.
  unfold cropCanvas, num_ratio. rewrite Hx, Hy, Hw, Hh.
  rewrite (proj2 (Z.eqb_neq _ _) HdW), (proj2 (Z.eqb_neq _ _) HdH).
  destruct (setCanvasDim_in_range 300 cw Hw1 Hw2) as [-> Hcw].
  destruct (setCanvasDim_in_range 150 ch Hh1 Hh2) as [-> Hch].
  unfold drawImage, num_mul. simpl.
  rewrite (scaled_nonzero cw _ _ Hw1 HnW HdW).
  rewrite (scaled_nonzero ch _ _ Hh1 HnH HdH). simpl.
  unfold toBlob. simpl.
  rewrite (proj2 (Z.eqb_neq _ 0)) by lia.
  rewrite (proj2 (Z.eqb_neq _ 0)) by lia.
  reflexivity.
Qed.

Lemma committedDims_callback (k : string) (b : Blob) (w : World) :
  committedDims k (toBlob_callback k (Some b) w) = blob_dims b.
Proof.
  unfold committedDims, toBlob_callback, createObjectURL. simpl.
  by rewrite lookup_insert_eq.
Qed.

(** C1, as the code has it.  Pressing Done on a completed selection
    [(x, y, cw, ch)], given in displayed pixels, queues one JPEG blob for
    the pending slot.  The rectangle read from the image is the selection
    mapped to native pixels by the factors natural/displayed; it is painted
    onto a canvas that has the size of the selection in DISPLAYED pixels
    (rounded down), not the scaled size.  So the image that reaches the slot
    is [floor cw] by [floor ch]; for a selection that covers the whole
    displayed image it shows the whole native image at the displayed size. *)
Theorem crop_commit_dims (w : World) (c : Crop) (img : HTMLImageElement)
    (k : string) (x y cw ch : Q) :
  completedCrop w = Some c → imageRef w = Some img →
  pendingStepKey w = Some k → k ≠ "" →
  crop_x c = Some x → crop_y c = Some y →
  crop_width c = Some cw → crop_height c = Some ch →
  (1 <= cw)%Q → (cw <= 2147483647)%Q → (1 <= ch)%Q → (ch <= 2147483647)%Q →
  naturalWidth img ≠ 0 → naturalHeight img ≠ 0 →
  img_width img ≠ 0 → img_height img ≠ 0 →
  let scaleX := (inject_Z (naturalWidth img) / inject_Z (img_width img))%Q in
  let scaleY := (inject_Z (naturalHeight img) / inject_Z (img_height img))%Q in
  ∃ (b : Blob) (op : DrawOp),
    handleCropDone true w = setEncoders (encoders w ++ [(k, Some b)]) w
    ∧ blob_body b = Bitmap (Qfloor cw) (Qfloor ch) [op]
    ∧ (∀ w0, committedDims k (toBlob_callback k (Some b) w0)
             = Some (Qfloor cw, Qfloor ch))
    ∧ draw_sx op = (x * scaleX)%Q ∧ draw_sy op = (y * scaleY)%Q
    ∧ draw_sw op = (cw * scaleX)%Q ∧ draw_sh op = (ch * scaleY)%Q
    ∧ draw_dx op = 0%Q ∧ draw_dy op = 0%Q
    ∧ draw_dw op = cw ∧ draw_dh op = ch
    ∧ ((x == 0)%Q → (y == 0)%Q →
       (cw == inject_Z (img_width img))%Q →
       (ch == inject_Z (img_height img))%Q →
       (draw_sx op == 0)%Q ∧ (draw_sy op == 0)%Q
       ∧ (draw_sw op == inject_Z (naturalWidth img))%Q
       ∧ (draw_sh op == inject_Z (naturalHeight img))%Q
       ∧ ∀ w0, committedDims k (toBlob_callback k (Some b) w0)
               = Some (img_width img, img_height img)).
Proof.
  intros Hc Hi Hk Hne Hx Hy Hw Hh Hw1 Hw2 Hh1 Hh2 HnW HnH HdW HdH scaleX scaleY.
  pose proof (cropCanvas_spec c img x y cw ch Hx Hy Hw Hh Hw1 Hw2 Hh1 Hh2
                HnW HnH HdW HdH) as Hblob.
  simpl in Hblob. fold scaleX scaleY in Hblob.
  eexists _, _. split.
  { unfold handleCropDone. rewrite Hc, Hi, Hk.
    rewrite (proj2 (String.eqb_neq k "") Hne). simpl.
    rewrite Hblob. reflexivity. }
  split; [reflexivity|].
  split; [intros w0; by rewrite committedDims_callback|].
  repeat (split; [reflexivity|]).
  intros Ex Ey Ew Eh. cbn [draw_sx draw_sy draw_sw draw_sh].
  assert (HdW' : ¬ (inject_Z (img_width img) == 0)%Q).
  { unfold Qeq. simpl. lia. }
  assert (HdH' : ¬ (inject_Z (img_height img) == 0)%Q).
  { unfold Qeq. simpl. lia. }
  split; [rewrite Ex; ring|].
  split; [rewrite Ey; ring|].
  split; [rewrite Ew; unfold scaleX; by field|].
  split; [rewrite Eh; unfold scaleY; by field|].
  intros w0. rewrite committedDims_callback. unfold blob_dims. simpl.
  by rewrite Ew, Eh, !Qfloor_Z.
Qed.

Lemma crop_commit_dims_witness :
  ∃ (b : Blob) (op : DrawOp),
    handleCropDone true cropping
      = setEncoders (encoders cropping ++ [("front", Some b)]) cropping
    ∧ blob_body b = Bitmap 1000 500 [op]
    ∧ (draw_sw op == 2000)%Q ∧ (draw_sh op == 1000)%Q
    ∧ ∀ w0, committedDims "front" (toBlob_callback "front" (Some b) w0)
            = Some (1000, 500).
Proof.
  destruct (crop_commit_dims cropping wholePhoto photo "front" 0 0 1000 500)
    as (b & op & H1 & H2 & _ & _ & _ & _ & _ & _ & _ & _ & _ & H3);
    try reflexivity; try done.
  destruct H3 as (_ & _ & H4 & H5 & H6); try reflexivity.
  exists b, op. repeat split; assumption.
Defined.

(** C1, as the specification words it, fails: a 2000x1000 photo shown at
    1000x500 and selected whole is stored as a 1000x500 image. *)
Lemma crop_full_selection_not_native :
  committedDims "front" (run plainNumber capture initial) = Some (1000, 500)
  ∧ scaledSelectionDims wholePhoto photo = Some (2000, 1000)
  ∧ committedDims "front" (run plainNumber capture initial)
    ≠ scaledSelectionDims wholePhoto photo
  ∧ committedDims "front" (run plainNumber capture initial)
    ≠ Some (naturalWidth photo, naturalHeight photo).
Proof. vm_compute. repeat split; congruence. Qed.

(** ** Step sequencer *)

Lemma mounted_range (w : World) :
  mounted w = true → 0 ≤ currentStep w ≤ 3.
Proof.
  unfold mounted, currentStepData.
  destruct (currentStep w <? 0) eqn:E; [done|].
  apply Z.ltb_ge in E.
  destruct (steps !! Z.to_nat (currentStep w)) eqn:L; [|done].
  intros _. apply lookup_lt_Some in L. simpl in L. lia.
Qed.

(** C4.  The Next button moves to the following step exactly when the slot
    of the current step holds an image and the step is not the last one;
    in every other state, in particular whenever the current slot is
    empty, it changes nothing. *)
Theorem advance_gated_by_completion (w : World) :
  clickNext w =
    (if isCurrentStepComplete w && negb (isLastStep w)
     then setCurrentStep (currentStep w + 1) w else w)
  ∧ (isCurrentStepComplete w = false → clickNext w = w).
Proof.
  assert (H : clickNext w =
    (if isCurrentStepComplete w && negb (isLastStep w)
     then setCurrentStep (currentStep w + 1) w else w)).
  { unfold clickNext, click, nextDisabled.
    destruct (mounted w) eqn:M.
    - apply mounted_range in M.
      destruct (isCurrentStepComplete w); [|done].
      unfold isLastStep, handleNext. simpl.
      change (Z.of_nat 4 - 1) with 3.
      destruct (currentStep w =? 3) eqn:E; [done|].
      apply Z.eqb_neq in E. simpl.
      by rewrite (proj2 (Z.ltb_lt _ _)) by lia.
    - unfold isCurrentStepComplete. unfold mounted in M.
      by destruct (currentStepData w). }
  split; [exact H|]. intros Hc. by rewrite H, Hc.
Qed.

Lemma advance_gated_by_completion_witness :
  isCurrentStepComplete cropping = false ∧ clickNext cropping = cropping.
Proof.
  split; [reflexivity|].
  apply (advance_gated_by_completion cropping). reflexivity.
Defined.

(** ** File selection *)

(** C7.  A selected file whose content type does not start with [image/]
    only produces the destructive "Invalid file" notice: slots, step,
    result and loading flag are untouched, no FileReader is started, and
    the crop modal is on screen after the event exactly if it was before
    (so it stays absent). *)
Theorem non_image_file_rejected (stepKey : string) (f : File)
    (rest : list File) (w : World) :
  startsWith (file_type f) "image/" = false →
  let w' := handleFileSelect stepKey (Some (f :: rest)) w in
  w' = toast invalid_file_toast w
  ∧ toasts w' = (toasts w ++ [invalid_file_toast])%list
  ∧ images w' = images w ∧ currentStep w' = currentStep w
  ∧ result w' = result w ∧ isLoading w' = isLoading w
  ∧ readers w' = readers w
  ∧ cropImageSrc w' = cropImageSrc w ∧ pendingStepKey w' = pendingStepKey w
  ∧ cropperVisible w' = cropperVisible w.
Proof.
  intros Hf w'. subst w'. unfold handleFileSelect. simpl. rewrite Hf. simpl.
  repeat split.
Qed.

Lemma non_image_file_rejected_witness :
  startsWith (file_type pdf) "image/" = false
  ∧ handleFileSelect "front" (Some [pdf]) initial
    = toast invalid_file_toast initial
  ∧ cropperVisible (handleFileSelect "front" (Some [pdf]) initial) = false.
Proof.
  split; [reflexivity|].
  destruct (non_image_file_rejected "front" pdf [] initial)
    as (H1 & _ & _ & _ & _ & _ & _ & _ & _ & H2); [reflexivity|].
  split; [exact H1|]. rewrite H2. reflexivity.
Defined.

(** C10.  A selection event that carries no file (a missing or an empty
    file list) appends to the notices the destructive "Invalid file" /
    "Please select an image file." toast, leaves a state that is the very
    state a non-image file leaves, and changes no other part of the
    state: slots, step, result, loading flag, crop state, preview
    handles, requests and pending callbacks are all as they were. *)
Theorem no_file_same_notice (stepKey : string) (files : option (list File))
    (w : World) :
  files = None ∨ files = Some [] →
  let w' := handleFileSelect stepKey files w in
  toasts w' =
    (toasts w ++ [{| title := "Invalid file";
                     description := "Please select an image file.";
                     variant := destructive |}])%list
  ∧ (∀ f rest, startsWith (file_type f) "image/" = false →
       handleFileSelect stepKey (Some (f :: rest)) w = w')
  ∧ currentStep w' = currentStep w ∧ images w' = images w
  ∧ isLoading w' = isLoading w ∧ result w' = result w
  ∧ showCropper w' = showCropper w ∧ crop w' = crop w
  ∧ completedCrop w' = completedCrop w ∧ cropImageSrc w' = cropImageSrc w
  ∧ imageRef w' = imageRef w ∧ pendingStepKey w' = pendingStepKey w
  ∧ objectURLs w' = objectURLs w ∧ urlCounter w' = urlCounter w
  ∧ requests w' = requests w ∧ awaiting w' = awaiting w
  ∧ readers w' = readers w ∧ encoders w' = encoders w
  ∧ console w' = console w
  ∧ cropperVisible w' = cropperVisible w.
Proof.
  intros Hfiles w'.
  assert (E : w' = toast invalid_file_toast w).
  { unfold w'. by destruct Hfiles as [-> | ->]. }
  rewrite E. split; [reflexivity|]. split; [|repeat split].
  intros f rest Hf. unfold handleFileSelect. simpl. by rewrite Hf.
Qed.

Lemma no_file_same_notice_witness :
  toasts (handleFileSelect "front" (Some []) initial)
    = [{| title := "Invalid file";
          description := "Please select an image file.";
          variant := destructive |}]
  ∧ toasts (handleFileSelect "front" None initial)
    = toasts (handleFileSelect "front" (Some [pdf]) initial).
Proof.
  destruct (no_file_same_notice "front" (Some []) initial
              (or_intror eq_refl)) as [H1 _].
  destruct (no_file_same_notice "front" None initial (or_introl eq_refl))
    as (_ & H2 & _).
  split; [exact H1|]. by rewrite (H2 pdf []).
Defined.

(** ** Cancelling a crop *)

(** C5, as the code has it.  Cancel takes the crop modal off the screen
    and changes neither slots, step, result, loading flag nor preview
    handles.  The selection is not discarded: both the live and the
    completed selection stay in the state after the modal closes, whether
    it closes by Cancel or by a committed crop. *)
Theorem cancel_hides_modal_keeps_selection (w : World) :
  cropperVisible (clickCancel w) = false
  ∧ images (clickCancel w) = images w
  ∧ currentStep (clickCancel w) = currentStep w
  ∧ result (clickCancel w) = result w
  ∧ isLoading (clickCancel w) = isLoading w
  ∧ objectURLs (clickCancel w) = objectURLs w
  ∧ completedCrop (clickCancel w) = completedCrop w
  ∧ crop (clickCancel w) = crop w
  ∧ (∀ k b, completedCrop (toBlob_callback k b w) = completedCrop w
            ∧ crop (toBlob_callback k b w) = crop w).
Proof.
  unfold clickCancel, click.
  destruct (cropperVisible w) eqn:V; simpl.
  - repeat split; try by destruct b.
    unfold cropperVisible. simpl.
    by rewrite andb_false_r.
  - rewrite V. repeat split; by destruct b.
Qed.

(** C5, as the specification words it, fails: with the modal open on a
    completed selection, Cancel leaves the data URL, the pending slot and
    the selection in place, and the next crop that is committed without a
    new selection is cut with the old one. *)
Lemma cancel_keeps_sub_flow_state :
  cropperVisible cropping = true
  ∧ cropImageSrc (clickCancel cropping) = Some "data:image/jpeg;base64,AA"
  ∧ pendingStepKey (clickCancel cropping) = Some "front"
  ∧ completedCrop (clickCancel cropping) = Some wholePhoto
  ∧ ¬ cancelDiscardsSubFlow cropping
  ∧ committedDims "front" (run plainNumber cancelThenCommit initial)
    = Some (1000, 500).
Proof.
  repeat split; try reflexivity.
  intros (H & _). vm_compute in H. discriminate.
Qed.

(** ** Submission *)

Lemma handleAppraise_sends (w : World) :
  allImagesUploaded w = true →
  ∃ front back topLeft bottomRight : UploadedImage,
    images w !! "front" = Some front ∧ images w !! "back" = Some back
    ∧ images w !! "topLeft" = Some topLeft
    ∧ images w !! "bottomRight" = Some bottomRight
    ∧ handleAppraise w =
        fetch [("front", file front); ("back", file back);
               ("topLeft", file topLeft); ("bottomRight", file bottomRight)]
          (setResult None (setIsLoading true w)).
Proof.
  intros H. unfold handleAppraise. rewrite H. simpl.
  unfold allImagesUploaded, uploaded in H.
  destruct (images w !! "front") as [front|]; [|done].
  destruct (images w !! "back") as [back|]; [|done].
  destruct (images w !! "topLeft") as [topLeft|]; [|done].
  destruct (images w !! "bottomRight") as [bottomRight|]; [|done].
  by exists front, back, topLeft, bottomRight.
Qed.

Lemma click_disabled (rendered : bool) (onClick : World → World) (w : World) :
  click rendered true onClick w = w.
Proof. unfold click. by rewrite andb_false_r. Qed.

(** Handlers that touch neither the request count nor the loading flag. *)
Lemma handleFileSelect_flight (k : string) (files : option (list File))
    (w : World) :
  awaiting (handleFileSelect k files w) = awaiting w
  ∧ isLoading (handleFileSelect k files w) = isLoading w.
Proof. unfold handleFileSelect. by repeat case_match. Qed.

Lemma handleCropDone_flight (ctx2d : bool) (w : World) :
  awaiting (handleCropDone ctx2d w) = awaiting w
  ∧ isLoading (handleCropDone ctx2d w) = isLoading w.
Proof. unfold handleCropDone. by repeat case_match. Qed.

Lemma toBlob_callback_flight (k : string) (b : option Blob) (w : World) :
  awaiting (toBlob_callback k b w) = awaiting w
  ∧ isLoading (toBlob_callback k b w) = isLoading w.
Proof. by destruct b. Qed.

Lemma navigation_flight (w : World) :
  (awaiting (clickNext w) = awaiting w ∧ isLoading (clickNext w) = isLoading w)
  ∧ (awaiting (clickPrevious w) = awaiting w
     ∧ isLoading (clickPrevious w) = isLoading w).
Proof.
  unfold clickNext, clickPrevious, click, handleNext, handlePrevious.
  split; by repeat case_match.
Qed.

(** Every event other than a reset keeps the loading flag in step with
    the awaited request. *)
Lemma step_keeps_flight (N : Q → string) (w : World) (e : Event) :
  e ≠ ClickReset → loadingWhileInFlight w → loadingWhileInFlight (step N w e).
Proof.
  intros He Hw. unfold loadingWhileInFlight in *.
  destruct e; simpl; try done.
  - unfold selectFile. destruct (currentStepData w) as [d|]; [|done].
    by destruct (handleFileSelect_flight (key d) files w) as [-> ->].
  - by destruct (readers w) as [|[k f] rest].
  - by case_match.
  - by case_match.
  - by case_match.
  - unfold clickCancel, click. by repeat case_match.
  - unfold clickDone, click. case_match; [|done].
    by destruct (handleCropDone_flight ctx2d w) as [-> ->].
  - destruct (encoders w) as [|[k b] rest]; [done|].
    by destruct (toBlob_callback_flight k b (setEncoders rest w)) as [-> ->].
  - by destruct (navigation_flight w) as [_ [-> ->]].
  - by destruct (navigation_flight w) as [[-> ->] _].
  - unfold clickAppraise, click.
    destruct (mounted w && allImagesUploaded w) eqn:R; [|done].
    destruct Hw as [[Ha L]|[Ha L]]; rewrite L; simpl; [|by right].
    apply andb_prop in R as [_ A].
    destruct (handleAppraise_sends w A) as (f & b & t & r & _ & _ & _ & _ & E).
    rewrite E. simpl. right. by rewrite Ha.
  - destruct Hw as [[Ha L]|[Ha L]]; rewrite Ha; [by left|].
    left. by destruct o as [|? [?|]]; simpl; repeat case_match.
Qed.

Lemma run_keeps_flight (N : Q → string) (es : list Event) (w : World) :
  ClickReset ∉ es → loadingWhileInFlight w → loadingWhileInFlight (run N es w).
Proof.
  revert w. induction es as [|e es IH]; intros w Hes Hw; [done|].
  apply not_elem_of_cons in Hes as [He Hes].
  unfold run. simpl. apply IH; [done|]. by apply step_keeps_flight.
Qed.

(** C3, as the code has it.  The gate is the loading flag, not the
    request: while the flag is up the Appraise button is disabled, so a
    second submission changes nothing and sends nothing; two clicks in a
    row on an enabled button send exactly one request.  In every state
    reached from the initial one without a reset, a request in flight means
    the loading flag is up: it is then the only one, and submitting again
    is a no-op. *)
Theorem second_submit_is_noop (N : Q → string) (w : World) :
  (isLoading w = true → clickAppraise w = w)
  ∧ clickAppraise (clickAppraise w) = clickAppraise w
  ∧ (mounted w = true → allImagesUploaded w = true → isLoading w = false →
     ∃ body,
       requests (clickAppraise (clickAppraise w)) = (requests w ++ [body])%list
       ∧ awaiting (clickAppraise (clickAppraise w)) = S (awaiting w)
       ∧ isLoading (clickAppraise w) = true)
  ∧ (∀ es, ClickReset ∉ es → (0 < awaiting (run N es initial))%nat →
     awaiting (run N es initial) = 1%nat
     ∧ clickAppraise (run N es initial) = run N es initial).
Proof.
  assert (Hoff : ∀ v, isLoading v = true → clickAppraise v = v).
  { intros v Hv. unfold clickAppraise. rewrite Hv. apply click_disabled. }
  assert (Hon : mounted w = true → allImagesUploaded w = true →
                isLoading w = false →
                ∃ body, clickAppraise w
                        = fetch body (setResult None (setIsLoading true w))).
  { intros M A L. unfold clickAppraise, click. rewrite M, A, L. simpl.
    destruct (handleAppraise_sends w A) as (f & b & t & r & _ & _ & _ & _ & E).
    rewrite E. eauto. }
  assert (Hhid : mounted w && allImagesUploaded w = false →
                 clickAppraise w = w).
  { intros H. unfold clickAppraise, click. by rewrite H. }
  split; [apply Hoff|]. split.
  - destruct (mounted w) eqn:M; [|rewrite !Hhid; reflexivity].
    destruct (allImagesUploaded w) eqn:A; [|rewrite !Hhid; reflexivity].
    destruct (isLoading w) eqn:L; [by rewrite !(Hoff w L)|].
    destruct (Hon eq_refl eq_refl eq_refl) as [body E].
    rewrite E. by apply Hoff.
  - split.
    + intros M A L. destruct (Hon M A L) as [body E].
      exists body. rewrite E. by rewrite Hoff.
    + intros es Hes Hflight.
      assert (I : loadingWhileInFlight (run N es initial)).
      { apply run_keeps_flight; [done|]. by left. }
      destruct I as [[Ha _]|[Ha L]]; [lia|]. split; [done|by apply Hoff].
Qed.

Lemma second_submit_is_noop_witness :
  isLoading submitting = true
  ∧ clickAppraise submitting = submitting
  ∧ (∃ body,
      requests (clickAppraise (clickAppraise filled))
      = (requests filled ++ [body])%list)
  ∧ clickAppraise (run plainNumber (fourCaptures ++ [ClickAppraise]) initial)
    = run plainNumber (fourCaptures ++ [ClickAppraise]) initial.
Proof.
  destruct (second_submit_is_noop plainNumber submitting) as (H1 & _ & _ & _).
  destruct (second_submit_is_noop plainNumber filled) as (_ & _ & H2 & H3).
  destruct H2 as (body & H4 & _); try reflexivity.
  destruct (H3 (fourCaptures ++ [ClickAppraise])%list) as [_ H5].
  { vm_compute. intros H. repeat (apply elem_of_cons in H as [H|H]; [discriminate|]).
    by apply elem_of_nil in H. }
  { vm_compute. lia. }
  split; [reflexivity|]. split; [apply H1; reflexivity|].
  split; [exists body; exact H4|exact H5].
Defined.

(** C3, as the specification words it, fails: Reset stays enabled while a
    request is pending and lowers the loading flag without cancelling the
    request.  After four photos, Appraise, Reset and four new photos, one
    request is in flight, the flag is down and the button enabled, and
    submitting again sends a second request while the first is awaited. *)
Lemma reset_then_second_request :
  awaiting resetWhilePending = 1%nat
  ∧ isLoading resetWhilePending = false
  ∧ length (requests resetWhilePending) = 1%nat
  ∧ length (requests (clickAppraise resetWhilePending)) = 2%nat
  ∧ awaiting (clickAppraise resetWhilePending) = 2%nat
  ∧ ¬ secondSubmitNoop resetWhilePending.
Proof.
  assert (A : awaiting resetWhilePending = 1%nat) by (vm_compute; reflexivity).
  assert (R1 : length (requests resetWhilePending) = 1%nat)
    by (vm_compute; reflexivity).
  assert (R2 : length (requests (clickAppraise resetWhilePending)) = 2%nat)
    by (vm_compute; reflexivity).
  split; [exact A|]. split; [vm_compute; reflexivity|].
  split; [exact R1|]. split; [exact R2|].
  split; [vm_compute; reflexivity|].
  intros H. unfold secondSubmitNoop in H. rewrite A in H.
  specialize (H ltac:(lia)).
  apply (f_equal (λ v, length (requests v))) in H.
  change (length (requests (clickAppraise resetWhilePending))
          = length (requests resetWhilePending)) in H.
  rewrite R1, R2 in H. discriminate.
Qed.

(** The reset-free condition is needed: Reset stays enabled while a request
    is pending and lowers the loading flag, so after a reset and four new
    captures a second request leaves while the first is still awaited. *)
Example reset_forgets_pending_request :
  awaiting
    (run plainNumber
       (fourCaptures ++ [ClickAppraise; ClickReset] ++ fourCaptures
        ++ [ClickAppraise]) initial) = 2%nat.
Proof. reflexivity. Qed.

Lemma resume_failed (N : Q → string) (o : FetchOutcome) (w : World) :
  submissionFailed o = true →
  appraise_resume N o w = appraise_finally (appraise_catch w).
Proof.
  destruct o as [|status body]; simpl; [done|].
  intros H. unfold appraise_resume. by rewrite H.
Qed.

(** C6.  When the awaited request fails in transport or comes back with a
    status outside 2xx, the loading flag drops, the destructive "Appraisal
    failed ... Please try again." notice is shown, and slots, step, result
    and preview handles are as they were; with the four slots still
    filled, the next click on Appraise sends the same four files again. *)
Theorem failed_submission_keeps_slots (N : Q → string) (w : World) (n : nat)
    (o : FetchOutcome) :
  awaiting w = S n → submissionFailed o = true →
  let w' := step N w (FetchSettled o) in
  images w' = images w ∧ currentStep w' = currentStep w
  ∧ isLoading w' = false
  ∧ toasts w' = (toasts w ++ [appraisal_failed_toast])%list
  ∧ variant appraisal_failed_toast = destructive
  ∧ result w' = result w ∧ objectURLs w' = objectURLs w
  ∧ (mounted w = true → allImagesUploaded w = true →
     ∃ front back topLeft bottomRight : UploadedImage,
       images w !! "front" = Some front ∧ images w !! "back" = Some back
       ∧ images w !! "topLeft" = Some topLeft
       ∧ images w !! "bottomRight" = Some bottomRight
       ∧ requests (clickAppraise w') =
           (requests w ++
              [[("front", file front); ("back", file back);
                ("topLeft", file topLeft); ("bottomRight", file bottomRight)]])%list
       ∧ isLoading (clickAppraise w') = true).
Proof.
  intros Ha Ho w'. subst w'. unfold step. rewrite Ha.
  rewrite (resume_failed N o _ Ho).
  repeat (split; [reflexivity|]).
  intros M A.
  set (w' := appraise_finally (appraise_catch (setAwaiting n w))).
  assert (A' : allImagesUploaded w' = true) by exact A.
  destruct (handleAppraise_sends w' A') as (f & b & t & r & Hf & Hb & Ht & Hr & E).
  exists f, b, t, r. repeat (split; [assumption|]).
  assert (C : clickAppraise w' = handleAppraise w').
  { unfold clickAppraise, click.
    change (mounted w') with (mounted w). change (isLoading w') with false.
    by rewrite M, A'. }
  rewrite C, E. split; reflexivity.
Qed.

Lemma failed_submission_keeps_slots_witness :
  images (step plainNumber submitting (FetchSettled (Response 500 None)))
    = images submitting
  ∧ isLoading (step plainNumber submitting (FetchSettled (Response 500 None)))
    = false
  ∧ length (requests
      (clickAppraise
         (step plainNumber submitting (FetchSettled (Response 500 None)))))
    = 2%nat.
Proof.
  destruct (failed_submission_keeps_slots plainNumber submitting 0
              (Response 500 None) eq_refl eq_refl)
    as (H1 & _ & H2 & _ & _ & _ & _ & H3).
  destruct H3 as (f & b & t & r & _ & _ & _ & _ & H4 & _); try reflexivity.
  split; [exact H1|]. split; [exact H2|].
  rewrite H4. reflexivity.
Defined.

Lemma step_settles_fetch (N : Q → string) (body : list (string * File))
    (o : FetchOutcome) (w : World) :
  step N (fetch body w) (FetchSettled o)
  = appraise_resume N o (setAwaiting (awaiting w) (fetch body w)).
Proof. reflexivity. Qed.

(** C9.  A submission started while a result is shown clears that result
    before the request leaves, and a failure does not bring it back: after
    the failed attempt no result is held. *)
Theorem failed_resubmission_loses_result (N : Q → string) (w : World)
    (r : AppraisalResult) (o : FetchOutcome) :
  result w = Some r → allImagesUploaded w = true →
  submissionFailed o = true →
  result (handleAppraise w) = None
  ∧ result (appraise_resume N o (handleAppraise w)) = None
  ∧ (mounted w = true → isLoading w = false →
     result (run N [ClickAppraise] w) = None
     ∧ result (run N [ClickAppraise; FetchSettled o] w) = None).
Proof.
  intros Hr A Ho.
  destruct (handleAppraise_sends w A) as (f & b & t & br & _ & _ & _ & _ & E).
  rewrite (resume_failed N o _ Ho), E.
  split; [reflexivity|]. split; [reflexivity|].
  intros M L.
  assert (C : clickAppraise w = handleAppraise w).
  { unfold clickAppraise, click. by rewrite M, A, L. }
  change (run N [ClickAppraise] w) with (clickAppraise w).
  change (run N [ClickAppraise; FetchSettled o] w)
    with (step N (clickAppraise w) (FetchSettled o)).
  rewrite C, E. split; [reflexivity|].
  rewrite step_settles_fetch. by rewrite (resume_failed N o _ Ho).
Qed.

Lemma failed_resubmission_loses_result_witness :
  result appraised = Some sampleResult
  ∧ result (run plainNumber [ClickAppraise; FetchSettled NetworkError] appraised)
    = None.
Proof.
  split; [reflexivity|].
  destruct (failed_resubmission_loses_result plainNumber appraised
              sampleResult NetworkError eq_refl eq_refl eq_refl)
    as (_ & _ & H).
  destruct H as (_ & H); [reflexivity|reflexivity|]. exact H.
Defined.

(** ** Preview handles *)

(** Committing a crop into a slot that already holds an image creates one
    more handle and keeps every handle that was live, the one of the
    replaced image included. *)
Lemma replacing_commit_keeps_old_handle (w : World) (k : string) (b : Blob)
    (old : UploadedImage) :
  images w !! k = Some old →
  "blob:" +:+ pretty (urlCounter w) ∉ objectURLs w →
  occupiedSlots (toBlob_callback k (Some b) w) = occupiedSlots w
  ∧ liveHandles (toBlob_callback k (Some b) w) = S (liveHandles w)
  ∧ objectURLs w ⊆ objectURLs (toBlob_callback k (Some b) w).
Proof.
  intros Hold Hfresh.
  unfold occupiedSlots, liveHandles, toBlob_callback, createObjectURL. simpl.
  split; [by erewrite map_size_insert_Some|].
  split; [|set_solver].
  rewrite size_union by set_solver. by rewrite size_singleton.
Qed.

Lemma revoke_fold (l : list UploadedImage) (w : World) (u : string) :
  u ∈ objectURLs
        (foldl (λ acc image,
                  if truthy (Some (preview image))
                  then revokeObjectURL (preview image) acc else acc) w l)
  ↔ u ∈ objectURLs w ∧ ∀ i, i ∈ l → preview i ≠ "" → u ≠ preview i.
Proof.
  revert w. induction l as [|a l IH]; intros w; simpl.
  - split; [intros H; split; [done|]; intros i Hi; by apply elem_of_nil in Hi
           |by intros [H _]].
  - rewrite IH. unfold truthy.
    destruct (String.eqb_spec (preview a) "") as [E|E]; simpl.
    + split.
      * intros [H1 H2]. split; [done|]. intros i Hi Hne.
        apply elem_of_cons in Hi as [->|Hi]; [done|by apply H2].
      * intros [H1 H2]. split; [done|]. intros i Hi. apply H2.
        by apply elem_of_cons; right.
    + split.
      * intros [H1 H2]. apply elem_of_difference in H1 as [H1 H3].
        split; [done|]. intros i Hi Hne.
        apply elem_of_cons in Hi as [->|Hi]; [set_solver|by apply H2].
      * intros [H1 H2]. split.
        -- apply elem_of_difference. split; [done|].
           assert (u ≠ preview a) by (apply H2; [by left|done]).
           set_solver.
        -- intros i Hi. apply H2. by apply elem_of_cons; right.
Qed.

(** Reset empties the slots, returns to the first step, drops the result
    and the loading flag, and revokes the handles of the images held at
    that moment, and only those. *)
Lemma handleReset_spec (w : World) :
  images (handleReset w) = ∅ ∧ currentStep (handleReset w) = 0
  ∧ result (handleReset w) = None ∧ isLoading (handleReset w) = false
  ∧ ∀ u, u ∈ objectURLs (handleReset w)
         ↔ u ∈ objectURLs w
           ∧ ∀ k i, images w !! k = Some i → preview i ≠ "" → u ≠ preview i.
Proof.
  repeat (split; [reflexivity|]).
  intros u. unfold handleReset. simpl. rewrite revoke_fold.
  split; intros [H1 H2]; (split; [done|]).
  - intros k i Hk. apply H2. apply list_elem_of_fmap. exists (k, i).
    split; [done|]. by apply elem_of_map_to_list.
  - intros i Hi. apply list_elem_of_fmap in Hi as ([k i'] & -> & Hi).
    apply elem_of_map_to_list in Hi. by apply (H2 k).
Qed.

(** C2 at a failing input: the front photo is captured and captured again.
    One slot is occupied, two preview handles are live; the slot shows the
    second handle, the first was never revoked. *)
Theorem retaken_photo_leaks_handle :
  occupiedSlots frontTwice = 1%nat
  ∧ liveHandles frontTwice = 2%nat
  ∧ preview <$> images frontTwice !! "front" = Some "blob:1"
  ∧ elements (objectURLs frontTwice) = ["blob:1"; "blob:0"].
Proof. vm_compute. repeat split. Qed.

(** C8 at a failing input: a session in which the front photo was retaken
    once ends with Reset.  Slots, step, result and loading flag are those
    of the initial state, but the handle of the replaced front photo is
    still live. *)
Theorem reset_after_retake_leaves_handle :
  images (run plainNumber session initial) = images initial
  ∧ currentStep (run plainNumber session initial) = 0
  ∧ result (run plainNumber session initial) = None
  ∧ isLoading (run plainNumber session initial) = false
  ∧ liveHandles (run plainNumber session initial) = 1%nat
  ∧ elements (objectURLs (run plainNumber session initial)) = ["blob:0"]
  ∧ liveHandles initial = 0%nat.
Proof. vm_compute. repeat split. Qed.

(** * Further properties of the component *)

(** ** Navigation *)

Lemma world_eta (w : World) :
  mkWorld (currentStep w) (images w) (isLoading w) (result w) (showCropper w)
    (crop w) (completedCrop w) (cropImageSrc w) (imageRef w)
    (pendingStepKey w) (toasts w) (objectURLs w) (urlCounter w) (requests w)
    (awaiting w) (readers w) (encoders w) (console w) = w.
Proof. by destruct w. Qed.

(** X1.  The Previous button goes one step back whenever the step is not
    the first, whether or not the current slot holds a photo; at the first
    step it changes nothing, and the index never becomes negative. *)
Theorem retreat_ignores_completion (w : World) :
  clickPrevious w =
    (if mounted w && (0 <? currentStep w)
     then setCurrentStep (currentStep w - 1) w else w)
  ∧ (currentStep w = 0 → clickPrevious w = w)
  ∧ (0 ≤ currentStep w → 0 ≤ currentStep (clickPrevious w) ≤ currentStep w)
  ∧ images (clickPrevious w) = images w.
Proof.
  assert (H : clickPrevious w =
    (if mounted w && (0 <? currentStep w)
     then setCurrentStep (currentStep w - 1) w else w)).
  { unfold clickPrevious, click, previousDisabled, handlePrevious.
    destruct (mounted w); [|done]. simpl.
    destruct (Z.eqb_spec (currentStep w) 0) as [E|E]; simpl.
    - by rewrite E.
    - destruct (Z.ltb_spec 0 (currentStep w)), (Z.gtb_spec (currentStep w) 0);
        done || lia. }
  split; [exact H|]. rewrite H.
  split; [intros ->; by rewrite andb_false_r|].
  split.
  - intros Hc. destruct (mounted w); simpl; [|lia].
    destruct (Z.ltb_spec 0 (currentStep w)); simpl; lia.
  - by destruct (mounted w && (0 <? currentStep w)).
Qed.

Lemma retreat_ignores_completion_witness :
  currentStep initial = 0 ∧ clickPrevious initial = initial.
Proof.
  split; [reflexivity|].
  apply (retreat_ignores_completion initial). reflexivity.
Defined.

(** X2.  Wherever the Next button is enabled, Next followed by Previous
    brings back the very same state. *)
Theorem next_then_previous (w : World) :
  mounted w = true → nextDisabled w = false →
  currentStep (clickNext w) = currentStep w + 1
  ∧ clickPrevious (clickNext w) = w.
Proof.
  intros M D. pose proof (mounted_range w M) as R.
  unfold nextDisabled in D. apply orb_false_elim in D as [C L].
  unfold isLastStep in L. change (Z.of_nat (length steps) - 1) with 3 in L.
  apply Z.eqb_neq in L.
  assert (E : clickNext w = setCurrentStep (currentStep w + 1) w).
  { unfold clickNext, click, nextDisabled, isLastStep, handleNext.
    rewrite M, C. change (Z.of_nat (length steps) - 1) with 3. simpl.
    rewrite (proj2 (Z.eqb_neq _ _) L). simpl.
    by rewrite (proj2 (Z.ltb_lt _ _)) by lia. }
  rewrite E. split; [reflexivity|].
  unfold clickPrevious, click, previousDisabled, handlePrevious, mounted,
    currentStepData. simpl.
  rewrite (proj2 (Z.ltb_ge _ _)) by lia.
  destruct (steps !! Z.to_nat (currentStep w + 1)) eqn:S1.
  2:{ apply lookup_ge_None in S1. simpl in S1. lia. }
  simpl. rewrite (proj2 (Z.eqb_neq _ 0)) by lia. simpl.
  rewrite (proj2 (Z.gtb_gt _ _)) by lia.
  unfold setCurrentStep. simpl.
  replace (currentStep w + 1 - 1) with (currentStep w) by lia.
  apply world_eta.
Qed.

Lemma next_then_previous_witness :
  clickPrevious (clickNext (run plainNumber capture initial))
  = run plainNumber capture initial.
Proof.
  apply (next_then_previous (run plainNumber capture initial)); reflexivity.
Defined.

(** ** Reachable states *)

Lemma run_invariant (N : Q → string) (P : World → Prop) :
  (∀ w e, P w → P (step N w e)) → ∀ es w, P w → P (run N es w).
Proof.
  intros Hstep es. induction es as [|e es IH]; intros w Hw; [done|].
  unfold run. simpl. apply IH. by apply Hstep.
Qed.

Lemma step_frame (N : Q → string) (w : World) (e : Event) :
  touchesSlots e = false →
  currentStep (step N w e) = currentStep w
  ∧ images (step N w e) = images w
  ∧ objectURLs (step N w e) = objectURLs w
  ∧ urlCounter (step N w e) = urlCounter w.
Proof.
  destruct e; simpl; try done; intros _.
  - unfold selectFile, handleFileSelect. by repeat case_match.
  - by destruct (readers w) as [|[k f] rest].
  - by case_match.
  - by case_match.
  - by case_match.
  - unfold clickCancel, click. by case_match.
  - unfold clickDone, click, handleCropDone. by repeat case_match.
  - unfold clickAppraise, click, handleAppraise. by repeat case_match.
  - destruct (awaiting w); [done|].
    by destruct o as [|? [?|]]; simpl; repeat case_match.
Qed.

Lemma clickNext_cases (w : World) :
  clickNext w = w
  ∨ (∃ d, currentStepData w = Some d ∧ uploaded (key d) w = true
          ∧ 0 ≤ currentStep w < 3
          ∧ clickNext w = setCurrentStep (currentStep w + 1) w).
Proof.
  unfold clickNext, click, nextDisabled, isCurrentStepComplete.
  destruct (mounted w) eqn:M; [|by left].
  pose proof (mounted_range w M) as R. unfold mounted in M.
  destruct (currentStepData w) as [d|] eqn:D; [|done].
  destruct (uploaded (key d) w) eqn:U; [|by left].
  unfold isLastStep, handleNext. change (Z.of_nat (length steps) - 1) with 3.
  destruct (Z.eqb_spec (currentStep w) 3) as [E|E]; [by left|]. simpl.
  rewrite (proj2 (Z.ltb_lt _ _)) by lia.
  right. exists d. repeat split; done || lia.
Qed.

Lemma clickPrevious_cases (w : World) :
  clickPrevious w = w
  ∨ (0 < currentStep w
     ∧ clickPrevious w = setCurrentStep (currentStep w - 1) w).
Proof.
  unfold clickPrevious, click, previousDisabled, handlePrevious.
  destruct (mounted w); [|by left]. simpl.
  destruct (Z.eqb_spec (currentStep w) 0); [by left|]. simpl.
  destruct (Z.gtb_spec (currentStep w) 0); [|by left].
  right. split; [lia|done].
Qed.

Lemma clickReset_cases (w : World) :
  clickReset w = w ∨ clickReset w = handleReset w.
Proof. unfold clickReset, click. case_match; [by right|by left]. Qed.

Lemma blobReady_cases (N : Q → string) (w : World) :
  (currentStep (step N w BlobReady) = currentStep w
   ∧ images (step N w BlobReady) = images w
   ∧ objectURLs (step N w BlobReady) = objectURLs w
   ∧ urlCounter (step N w BlobReady) = urlCounter w)
  ∨ (∃ k b rest, encoders w = (k, Some b) :: rest
       ∧ step N w BlobReady = toBlob_callback k (Some b) (setEncoders rest w)).
Proof.
  simpl. destruct (encoders w) as [|[k [b|]] rest]; [by left| |by left].
  right. by exists k, b, rest.
Qed.

Lemma step_keeps_earlier (N : Q → string) (w : World) (e : Event) :
  earlierStepsFilled w → earlierStepsFilled (step N w e).
Proof.
  intros [R F]. unfold earlierStepsFilled, uploaded in *.
  destruct (touchesSlots e) eqn:T.
  2:{ destruct (step_frame N w e T) as (-> & -> & _). by split. }
  destruct e; try done.
  - destruct (blobReady_cases N w) as [(-> & -> & _)|(k & b & rest & _ & ->)];
      [by split|].
    split; [done|]. intros n d Hd Hn. specialize (F n d Hd Hn).
    unfold toBlob_callback, createObjectURL. simpl in *.
    destruct (decide (k = key d)) as [->|Hk];
      [by rewrite lookup_insert_eq|by rewrite lookup_insert_ne].
  - simpl. destruct (clickPrevious_cases w) as [->|[Hp ->]]; [by split|].
    simpl. split; [lia|]. intros n d Hd Hn. apply (F n d Hd). lia.
  - simpl. destruct (clickNext_cases w) as [->|(d & Hd & Hu & Hr & ->)];
      [by split|].
    simpl. split; [lia|]. intros n d' Hd' Hn.
    destruct (decide (Z.of_nat n < currentStep w)) as [Hlt|Hge];
      [by apply (F n d')|].
    assert (n = Z.to_nat (currentStep w)) as -> by lia.
    unfold currentStepData in Hd.
    rewrite (proj2 (Z.ltb_ge _ _)) in Hd by lia.
    rewrite Hd in Hd'. injection Hd' as <-. exact Hu.
  - simpl. destruct (clickReset_cases w) as [->| ->]; [by split|].
    simpl. split; [lia|]. intros n d _ Hn. lia.
Qed.

Lemma initial_earlier : earlierStepsFilled initial.
Proof. split; [simpl; lia|]. intros n d _ Hn. simpl in Hn. lia. Qed.

(** X3.  Whatever the user and the network do, the step index stays one
    of 0..3, so the component always renders a step; and since only Next
    increases it, every step before the current one has its photo.  So
    the Appraise button is there as soon as the last step is complete. *)
Theorem steps_cannot_be_skipped (N : Q → string) (es : list Event) :
  0 ≤ currentStep (run N es initial) ≤ 3
  ∧ mounted (run N es initial) = true
  ∧ (∀ (n : nat) (d : Step),
       steps !! n = Some d → Z.of_nat n < currentStep (run N es initial) →
       uploaded (key d) (run N es initial) = true)
  ∧ (isLastStep (run N es initial) = true →
     isCurrentStepComplete (run N es initial) = true →
     allImagesUploaded (run N es initial) = true).
Proof.
  destruct (run_invariant N _ (step_keeps_earlier N) es initial initial_earlier)
    as [R F].
  set (w := run N es initial) in *.
  assert (M : mounted w = true).
  { unfold mounted, currentStepData.
    rewrite (proj2 (Z.ltb_ge _ _)) by lia.
    destruct (steps !! Z.to_nat (currentStep w)) eqn:E; [done|].
    apply lookup_ge_None in E. simpl in E. lia. }
  split; [done|]. split; [done|]. split; [done|].
  intros L C. unfold isLastStep in L. apply Z.eqb_eq in L.
  change (Z.of_nat (length steps) - 1) with 3 in L.
  unfold isCurrentStepComplete, currentStepData in C.
  rewrite L in C. simpl in C.
  pose proof (F 0%nat _ eq_refl) as F0. pose proof (F 1%nat _ eq_refl) as F1.
  pose proof (F 2%nat _ eq_refl) as F2. simpl in F0, F1, F2.
  unfold allImagesUploaded. rewrite F0, F1, F2 by lia.
  simpl. exact C.
Qed.

Lemma steps_cannot_be_skipped_witness :
  isLastStep filled = true ∧ allImagesUploaded filled = true.
Proof.
  split; [reflexivity|].
  apply (steps_cannot_be_skipped plainNumber fourCaptures); reflexivity.
Defined.

(** ** Preview handles in reachable states *)

Lemma fresh_url (w : World) :
  (∀ u, u ∈ objectURLs w →
        ∃ n, (n < urlCounter w)%nat ∧ u = "blob:" +:+ pretty n) →
  "blob:" +:+ pretty (urlCounter w) ∉ objectURLs w.
Proof.
  intros H Hin. destruct (H _ Hin) as (n & Hn & E).
  apply (inj (String.app _)) in E. apply (inj (pretty : nat → string)) in E. lia.
Qed.

Lemma handleReset_counter (w : World) :
  urlCounter (handleReset w) = urlCounter w.
Proof.
  unfold handleReset. simpl. generalize ((map_to_list (images w)).*2).
  intros l. revert w. induction l as [|a l IH]; intros w; simpl; [done|].
  rewrite IH. by case_match.
Qed.

Lemma step_keeps_handles (N : Q → string) (w : World) (e : Event) :
  handlesSound w → handlesSound (step N w e).
Proof.
  intros (U & P & C). unfold handlesSound, occupiedSlots, liveHandles in *.
  destruct (touchesSlots e) eqn:T.
  2:{ by destruct (step_frame N w e T) as (_ & -> & -> & ->). }
  destruct e; try done.
  - destruct (blobReady_cases N w)
      as [(_ & -> & -> & ->)|(k & b & rest & _ & ->)]; [done|].
    pose proof (fresh_url w U) as Hfresh.
    unfold toBlob_callback, createObjectURL. simpl.
    split; [|split].
    + intros u Hu. apply elem_of_union in Hu as [Hu|Hu].
      * apply elem_of_singleton in Hu as ->. exists (urlCounter w).
        split; [lia|done].
      * destruct (U u Hu) as (n & Hn & ->). exists n. split; [lia|done].
    + intros k' i Hi. destruct (decide (k = k')) as [->|Hk].
      * rewrite lookup_insert_eq in Hi. injection Hi as <-. simpl.
        set_solver.
      * rewrite lookup_insert_ne in Hi by done.
        apply elem_of_union. right. by apply (P k').
    + rewrite size_union by set_solver. rewrite size_singleton.
      rewrite map_size_insert. case_match; unfold id; lia.
  - simpl. by destruct (clickPrevious_cases w) as [->|[_ ->]].
  - simpl. by destruct (clickNext_cases w) as [->|(d & _ & _ & _ & ->)].
  - simpl. destruct (clickReset_cases w) as [->| ->]; [done|].
    destruct (handleReset_spec w) as (Hi & _ & _ & _ & Hu).
    rewrite Hi. split; [|split].
    + intros u Hin. apply Hu in Hin as [Hin _].
      rewrite handleReset_counter. by apply U.
    + intros k i Hk. by apply lookup_empty_Some in Hk.
    + rewrite map_size_empty. lia.
Qed.

Lemma initial_handles : handlesSound initial.
Proof.
  split; [|split].
  - intros u Hu. by apply not_elem_of_empty in Hu.
  - intros k i Hk. by destruct (lookup_empty_Some (M := gmap string) k i).
  - reflexivity.
Qed.

(** X4.  In every reachable state the preview of each held image is a
    live blob URL (a slot never shows a revoked handle), and there are
    never fewer live handles than occupied slots. *)
Theorem held_previews_are_live (N : Q → string) (es : list Event) :
  (∀ k i, images (run N es initial) !! k = Some i →
          preview i ∈ objectURLs (run N es initial) ∧ preview i ≠ "")
  ∧ (occupiedSlots (run N es initial) ≤ liveHandles (run N es initial))%nat.
Proof.
  destruct (run_invariant N _ (step_keeps_handles N) es initial initial_handles)
    as (U & P & C).
  split; [|done]. intros k i Hk. split; [by apply (P k)|].
  destruct (U _ (P k i Hk)) as (n & _ & ->). done.
Qed.

Lemma held_previews_are_live_witness :
  ∃ i, images (run plainNumber fourCaptures initial) !! "back" = Some i
       ∧ preview i ∈ objectURLs (run plainNumber fourCaptures initial).
Proof.
  assert (E : ∃ i, images (run plainNumber fourCaptures initial) !! "back"
                   = Some i)
    by (vm_compute; eexists; reflexivity).
  destruct E as [i E]. exists i. split; [exact E|].
  exact (proj1 (proj1 (held_previews_are_live plainNumber fourCaptures)
                  "back" i E)).
Defined.

(** X5.  Every blob URL the component creates is new: in a reachable
    state a commit adds one live handle, whether the slot was empty or
    not.  Into an empty slot it keeps handles and slots level; into an
    occupied slot it leaves one handle more than before per slot. *)
Theorem commit_adds_one_handle (N : Q → string) (es : list Event)
    (k : string) (b : Blob) :
  let w := run N es initial in
  liveHandles (toBlob_callback k (Some b) w) = S (liveHandles w)
  ∧ occupiedSlots (toBlob_callback k (Some b) w)
    = (if uploaded k w then occupiedSlots w else S (occupiedSlots w)).
Proof.
  intros w.
  destruct (run_invariant N _ (step_keeps_handles N) es initial initial_handles)
    as (U & _ & _).
  fold w in U. pose proof (fresh_url w U) as Hfresh.
  unfold liveHandles, occupiedSlots, uploaded, toBlob_callback,
    createObjectURL. simpl.
  split.
  - rewrite size_union by set_solver. by rewrite size_singleton.
  - rewrite map_size_insert. by destruct (images w !! k).
Qed.

(** X6.  With no leak so far, that is, when every live handle is the
    preview of a held image, Reset releases them all. *)
Theorem reset_releases_held_handles (w : World) :
  (∀ u, u ∈ objectURLs w →
        u ≠ "" ∧ ∃ k i, images w !! k = Some i ∧ preview i = u) →
  objectURLs (handleReset w) = ∅ ∧ liveHandles (handleReset w) = 0%nat.
Proof.
  intros H.
  assert (E : objectURLs (handleReset w) = ∅).
  { apply set_eq. intros u. split; [|set_solver].
    intros Hu. exfalso. unfold handleReset in Hu. simpl in Hu.
    apply revoke_fold in Hu as [Hu Hn].
    destruct (H u Hu) as (Hne & k & i & Hk & <-).
    apply (Hn i); [|done|done].
    apply list_elem_of_fmap. exists (k, i). split; [done|].
    by apply elem_of_map_to_list. }
  split; [done|]. unfold liveHandles. by rewrite E, size_empty.
Qed.


Lemma reset_releases_held_handles_witness :
  liveHandles filled = 4%nat ∧ liveHandles (handleReset filled) = 0%nat.
Proof.
  split; [vm_compute; reflexivity|].
  apply (reset_releases_held_handles filled).
  assert (F : ∀ k u,
     preview <$> images filled !! k = Some u →
     ∃ k i, images filled !! k = Some i ∧ preview i = u).
  { intros k u H. destruct (images filled !! k) as [i|] eqn:Hi; [|done].
    exists k, i. split; [done|]. by injection H. }
  intros u Hu. apply elem_of_elements in Hu. vm_compute in Hu.
  repeat (apply elem_of_cons in Hu as [->|Hu]);
    [| | | |by apply elem_of_nil in Hu]; (split; [done|]);
    first [ apply (F "front"); vm_compute; reflexivity
          | apply (F "back"); vm_compute; reflexivity
          | apply (F "topLeft"); vm_compute; reflexivity
          | apply (F "bottomRight"); vm_compute; reflexivity ].
Defined.

(** ** Slot keys in reachable states *)

Lemma handleReset_frame (w : World) :
  readers (handleReset w) = readers w
  ∧ pendingStepKey (handleReset w) = pendingStepKey w
  ∧ encoders (handleReset w) = encoders w
  ∧ requests (handleReset w) = requests w.
Proof.
  unfold handleReset. simpl. generalize ((map_to_list (images w)).*2).
  intros l. revert w. induction l as [|a l IH]; intros w; simpl; [done|].
  edestruct IH as (-> & -> & -> & ->). by case_match.
Qed.

Lemma currentStepData_key (w : World) (d : Step) :
  currentStepData w = Some d → key d ∈ stepKeys.
Proof.
  unfold currentStepData. destruct (currentStep w <? 0); [done|]. intros Hd.
  apply list_elem_of_fmap_2. by eapply list_elem_of_lookup_2.
Qed.

Lemma keys_ext (w w' : World) :
  images w' = images w → readers w' = readers w →
  pendingStepKey w' = pendingStepKey w → encoders w' = encoders w →
  slotKeysKnown w → slotKeysKnown w'.
Proof. unfold slotKeysKnown. by intros -> -> -> ->. Qed.

Lemma step_keeps_keys (N : Q → string) (w : World) (e : Event) :
  slotKeysKnown w → slotKeysKnown (step N w e).
Proof.
  intros K. pose proof K as (KI & KR & KP & KE).
  destruct e; simpl.
  - unfold selectFile. destruct (currentStepData w) as [d|] eqn:D; [|done].
    apply currentStepData_key in D.
    unfold handleFileSelect. repeat case_match; try done.
    split; [done|]. split; [|done]. simpl. intros k' f' Hin.
    apply elem_of_app in Hin as [Hin|Hin]; [by eapply KR|].
    apply list_elem_of_singleton in Hin. by injection Hin as -> _.
  - destruct (readers w) as [|[k f] rest] eqn:R; [done|].
    unfold reader_onload. simpl. split; [done|]. split; [|split; [|done]].
    + intros k' f' Hin. apply (KR k' f'). by right.
    + intros k' [= <-]. apply (KR k f). by left.
  - by case_match.
  - by case_match.
  - by case_match.
  - unfold clickCancel, click. by case_match.
  - unfold clickDone, click, handleCropDone. repeat case_match; try done.
    split; [exact KI|]. split; [exact KR|].
    split; [exact (proj1 (proj2 (proj2 K)))|]. simpl.
    intros k' b' Hin. apply elem_of_app in Hin as [Hin|Hin]; [by eapply KE|].
    apply list_elem_of_singleton in Hin. injection Hin as -> _. by apply KP.
  - destruct (encoders w) as [|[k [b|]] rest] eqn:E; [done| |].
    + unfold slotKeysKnown, toBlob_callback, createObjectURL. simpl.
      assert (Hk : k ∈ stepKeys) by (apply (KE k (Some b)); by left).
      split; [|split; [done|split; [done|]]].
      * intros k' Hs. destruct (decide (k = k')) as [<-|Hne]; [done|].
        rewrite lookup_insert_ne in Hs by done. by apply KI.
      * intros k' b' Hin. apply (KE k' b'). by right.
    + simpl. split; [done|]. split; [done|]. split; [done|].
      intros k' b' Hin. apply (KE k' b'). by right.
  - by destruct (clickPrevious_cases w) as [->|[_ ->]].
  - by destruct (clickNext_cases w) as [->|(d & _ & _ & _ & ->)].
  - apply (keys_ext w); [..|done];
      unfold clickAppraise, click, handleAppraise; by repeat case_match.
  - destruct (awaiting w); [done|].
    apply (keys_ext w); [..|done];
      by destruct o as [|? [?|]]; simpl; repeat case_match.
  - destruct (clickReset_cases w) as [->| ->]; [done|].
    destruct (handleReset_frame w) as (Hr & Hp & He & _).
    unfold slotKeysKnown. rewrite Hr, Hp, He.
    split; [|done]. intros k [i Hi].
    destruct (handleReset_spec w) as (Hi' & _). rewrite Hi' in Hi.
    by destruct (lookup_empty_Some (M := gmap string) k i).
Qed.

Lemma initial_keys : slotKeysKnown initial.
Proof.
  split; [|split; [|split]]; simpl.
  - intros k [i Hi]. by destruct (lookup_empty_Some (M := gmap string) k i).
  - intros k f Hin. by apply elem_of_nil in Hin.
  - done.
  - intros k b Hin. by apply elem_of_nil in Hin.
Qed.


Lemma stepKeys_size : size (list_to_set stepKeys : gset string) = 4%nat.
Proof. vm_compute. reflexivity. Qed.

(** X7.  Only the four step keys are ever used as slots, so at most four
    slots are occupied; and the Appraise and Reset buttons' test "all
    images uploaded" holds exactly when four slots are occupied. *)
Theorem slots_are_the_four_steps (N : Q → string) (es : list Event) :
  (∀ k, is_Some (images (run N es initial) !! k) →
        k ∈ ["front"; "back"; "topLeft"; "bottomRight"])
  ∧ (occupiedSlots (run N es initial) ≤ 4)%nat
  ∧ (allImagesUploaded (run N es initial) = true
     ↔ occupiedSlots (run N es initial) = 4%nat).
Proof.
  destruct (run_invariant N _ (step_keeps_keys N) es initial initial_keys)
    as (KI & _).
  generalize dependent (run N es initial). intros w KI.
  pose proof stepKeys_size as S4.
  assert (Hsub : dom (images w) ⊆ list_to_set stepKeys).
  { intros k Hk. apply elem_of_dom in Hk. apply elem_of_list_to_set.
    by apply KI. }
  assert (Hsz : size (dom (images w)) = occupiedSlots w) by apply size_dom.
  split; [exact KI|]. split.
  { rewrite <- Hsz, <- S4. by apply subseteq_size. }
  unfold allImagesUploaded, uploaded. split.
  - intros H.
    destruct (images w !! "front") as [i1|] eqn:E1; [|done].
    destruct (images w !! "back") as [i2|] eqn:E2; [|done].
    destruct (images w !! "topLeft") as [i3|] eqn:E3; [|done].
    destruct (images w !! "bottomRight") as [i4|] eqn:E4; [|done].
    assert (E : dom (images w) = list_to_set stepKeys).
    { apply set_eq. intros k.
      split; [apply Hsub|]. intros Hk. apply elem_of_dom.
      apply elem_of_list_to_set in Hk. unfold stepKeys in Hk. simpl in Hk.
      repeat (apply elem_of_cons in Hk as [->|Hk]);
        [by rewrite E1|by rewrite E2|by rewrite E3|by rewrite E4
        |destruct (not_elem_of_nil _ Hk)]. }
    rewrite <- Hsz, E. exact S4.
  - intros H4.
    assert (E : dom (images w) = list_to_set stepKeys).
    { apply set_subseteq_size_eq; [done|]. rewrite Hsz, S4. lia. }
    assert (F : ∀ k, k ∈ stepKeys → is_Some (images w !! k)).
    { intros k Hk. apply elem_of_dom. rewrite E.
      by apply elem_of_list_to_set. }
    destruct (F "front") as [? ->]; [by repeat constructor|].
    destruct (F "back") as [? ->]; [by repeat constructor|].
    destruct (F "topLeft") as [? ->]; [by repeat constructor|].
    destruct (F "bottomRight") as [? ->]; [by repeat constructor|]. done.
Qed.

Lemma slots_are_the_four_steps_witness :
  allImagesUploaded filled = true ∧ occupiedSlots filled = 4%nat.
Proof.
  split; [reflexivity|].
  apply (slots_are_the_four_steps plainNumber fourCaptures). reflexivity.
Defined.

(** ** What is sent *)







(** ** Submission, further *)

(** X9.  With any of the four slots empty nothing can be submitted: the
    handler returns at its guard and the button is not even rendered, so
    the state is unchanged and no request leaves. *)
Theorem appraise_needs_four_photos (w : World) (k : string) :
  k ∈ stepKeys → images w !! k = None →
  handleAppraise w = w ∧ clickAppraise w = w.
Proof.
  intros Hk Hn.
  assert (A : allImagesUploaded w = false).
  { unfold allImagesUploaded, uploaded. unfold stepKeys in Hk. simpl in Hk.
    repeat (apply elem_of_cons in Hk as [->|Hk]);
      [| | | |destruct (not_elem_of_nil _ Hk)];
      rewrite Hn; simpl; by rewrite ?andb_false_r. }
  split.
  - unfold handleAppraise. by rewrite A.
  - unfold clickAppraise, click. by rewrite A, andb_false_r.
Qed.

Lemma appraise_needs_four_photos_witness :
  images cropping !! "back" = None
  ∧ handleAppraise cropping = cropping ∧ clickAppraise cropping = cropping.
Proof.
  split; [reflexivity|].
  apply (appraise_needs_four_photos cropping "back"); [|reflexivity].
  by repeat constructor.
Defined.

(** X10.  When the awaited request settles the loading flag always drops
    and slots and step are untouched.  The result is stored, with the
    "Appraisal complete!" notice, exactly for a status in 200..299 whose
    body parses; every other outcome, a 2xx answer with an unreadable
    body included, takes the failure path, which leaves the result as
    it is and logs the error. *)
Theorem appraisal_outcome (N : Q → string) (o : FetchOutcome) (w : World) :
  isLoading (appraise_resume N o w) = false
  ∧ images (appraise_resume N o w) = images w
  ∧ currentStep (appraise_resume N o w) = currentStep w
  ∧ (∀ s data, o = Response s (Some data) → 200 ≤ s ≤ 299 →
       result (appraise_resume N o w) = Some data
       ∧ toasts (appraise_resume N o w)
         = (toasts w ++
              [{| title := "Appraisal complete!";
                  description :=
                    "Your card has been appraised. Overall grade: "
                    +:+ N (overallGrade data);
                  variant := default_variant |}])%list
       ∧ console (appraise_resume N o w) = console w)
  ∧ ((∀ s data, o = Response s (Some data) → ¬ 200 ≤ s ≤ 299) →
       result (appraise_resume N o w) = result w
       ∧ toasts (appraise_resume N o w)
         = (toasts w ++ [appraisal_failed_toast])%list
       ∧ console (appraise_resume N o w)
         = (console w ++ ["Appraisal error:"])%list).
Proof.
  assert (Hok : ∀ s, response_ok s = true ↔ 200 ≤ s ≤ 299).
  { intros s. unfold response_ok. rewrite andb_true_iff, !Z.leb_le. done. }
  split; [by destruct o as [|? [?|]]; simpl; repeat case_match|].
  split; [by destruct o as [|? [?|]]; simpl; repeat case_match|].
  split; [by destruct o as [|? [?|]]; simpl; repeat case_match|].
  split.
  - intros s data -> Hs. apply Hok in Hs. simpl. by rewrite Hs.
  - intros Hfail. destruct o as [|s [data|]]; simpl; try done.
    + destruct (response_ok s) eqn:E; [|done].
      apply Hok in E. by destruct (Hfail s data eq_refl).
    + by destruct (response_ok s).
Qed.

Lemma appraisal_outcome_witness :
  result (appraise_resume plainNumber (Response 299 (Some sampleResult))
            submitting) = Some sampleResult
  ∧ result (appraise_resume plainNumber (Response 200 None) submitting) = None
  ∧ result (appraise_resume plainNumber (Response 300 (Some sampleResult))
              submitting) = None.
Proof.
  destruct (appraisal_outcome plainNumber (Response 299 (Some sampleResult))
              submitting) as (_ & _ & _ & H1 & _).
  destruct (H1 299 sampleResult eq_refl) as [H1' _]; [lia|].
  destruct (appraisal_outcome plainNumber (Response 200 None) submitting)
    as (_ & _ & _ & _ & H2).
  destruct H2 as [H2' _]; [intros s data [=]|].
  destruct (appraisal_outcome plainNumber
              (Response 300 (Some sampleResult)) submitting)
    as (_ & _ & _ & _ & H3).
  destruct H3 as [H3' _]; [intros s data [= <- _]; lia|].
  split; [exact H1'|]. split; [by rewrite H2'|by rewrite H3'].
Defined.

(** ** The crop modal, further *)

(** X11.  Done does nothing at all, and the modal stays open, as long as
    no selection was completed, the image has not loaded, no slot is
    pending, or no 2d context can be had. *)
Theorem done_needs_selection_image_slot (ctx2d : bool) (w : World) :
  completedCrop w = None ∨ imageRef w = None ∨ pendingStepKey w = None
  ∨ pendingStepKey w = Some "" ∨ ctx2d = false →
  handleCropDone ctx2d w = w
  ∧ clickDone ctx2d w = w
  ∧ cropperVisible (clickDone ctx2d w) = cropperVisible w.
Proof.
  intros H.
  assert (E : handleCropDone ctx2d w = w).
  { unfold handleCropDone.
    destruct H as [->|[H|[H|[H|H]]]]; [done|..].
    - rewrite H. by destruct (completedCrop w).
    - rewrite H. by destruct (completedCrop w), (imageRef w).
    - rewrite H. by destruct (completedCrop w), (imageRef w).
    - rewrite H. by repeat case_match. }
  assert (E' : clickDone ctx2d w = w).
  { unfold clickDone, click. rewrite E. by case_match. }
  rewrite E'. by split.
Qed.

Lemma done_needs_selection_image_slot_witness :
  cropperVisible justOpened = true ∧ completedCrop justOpened = None
  ∧ clickDone true justOpened = justOpened.
Proof.
  split; [reflexivity|]. split; [reflexivity|].
  apply (done_needs_selection_image_slot true justOpened). by left.
Defined.

Lemma setCanvasDim_empty (dflt : Z) (v : num) :
  v = None ∨ (∃ q, v = Some q ∧ (0 <= q)%Q ∧ (q < 1)%Q) →
  setCanvasDim dflt v = 0.
Proof.
  intros [->|(q & -> & H0 & H1)]; [done|].
  unfold setCanvasDim. rewrite Qtrunc_nonneg by done.
  assert (F : Qfloor q = 0).
  { pose proof (Qfloor_resp_le _ _ H0) as L. change (Qfloor 0) with 0 in L.
    assert (U : Qfloor q < 1).
    { apply Z.lt_nge. intros G.
      assert (1 <= q)%Q.
      { eapply Qle_trans; [|apply Qfloor_le].
        change 1%Q with (inject_Z 1). by rewrite <- Zle_Qle. }
      by apply Qle_not_lt in H1. }
    lia. }
  by rewrite F.
Qed.

Lemma cropCanvas_dims (c : Crop) (img : HTMLImageElement) :
  canvas_width (cropCanvas c img) = setCanvasDim 300 (crop_width c)
  ∧ canvas_height (cropCanvas c img) = setCanvasDim 150 (crop_height c).
Proof. unfold cropCanvas, drawImage. by case_match. Qed.

(** X12.  A completed selection without area, one whose width or height is
    missing (as in the initial percent crop) or below one pixel, commits
    nothing: Done queues an empty encoding, and when it fires the state is
    exactly what it was before Done, the modal still open, the slot and
    the preview handles untouched, no notice shown. *)
Theorem selection_without_area_commits_nothing (N : Q → string) (w : World)
    (c : Crop) (img : HTMLImageElement) (k : string) :
  cropperVisible w = true → encoders w = [] →
  completedCrop w = Some c → imageRef w = Some img →
  pendingStepKey w = Some k → k ≠ "" →
  (crop_width c = None ∨ (∃ q, crop_width c = Some q ∧ (0 <= q)%Q ∧ (q < 1)%Q))
  ∨ (crop_height c = None
     ∨ (∃ q, crop_height c = Some q ∧ (0 <= q)%Q ∧ (q < 1)%Q)) →
  encoders (step N w (ClickDone true)) = [(k, None)]
  ∧ run N [ClickDone true; BlobReady] w = w.
Proof.
  intros V He Hc Hi Hk Hne Harea.
  assert (B : toBlob (cropCanvas c img) "image/jpeg" = None).
  { destruct (cropCanvas_dims c img) as [Ew Eh]. unfold toBlob.
    rewrite Ew, Eh.
    destruct Harea as [Ha|Ha].
    - by rewrite (setCanvasDim_empty 300 _ Ha).
    - rewrite (setCanvasDim_empty 150 _ Ha). by rewrite orb_true_r. }
  assert (D : step N w (ClickDone true)
              = setEncoders [(k, toBlob (cropCanvas c img) "image/jpeg")] w).
  { simpl. unfold clickDone, click, handleCropDone.
    rewrite V, Hc, Hi, Hk, He, (proj2 (String.eqb_neq k "") Hne). done. }
  split; [by rewrite D, B|].
  unfold run. cbn [foldl]. rewrite D, B. simpl.
  rewrite <- He. unfold setEncoders. simpl. apply world_eta.
Qed.

Lemma selection_without_area_commits_nothing_witness :
  cropperVisible croppingWidthOnly = true
  ∧ run plainNumber [ClickDone true; BlobReady] croppingWidthOnly
    = croppingWidthOnly.
Proof.
  split; [reflexivity|].
  apply (selection_without_area_commits_nothing plainNumber croppingWidthOnly
           widthOnly photo "front"); try reflexivity; try done.
  right. by left.
Defined.

(** X13.  A committed crop for the current step fills that slot and no
    other, closes the modal and does not move the step by itself; the
    Next button then is enabled and takes the user one step on. *)
Theorem commit_enables_next (w : World) (d : Step) (b : Blob) :
  currentStepData w = Some d → isLastStep w = false →
  let w' := toBlob_callback (key d) (Some b) w in
  currentStep w' = currentStep w
  ∧ cropperVisible w' = false
  ∧ isCurrentStepComplete w' = true
  ∧ (∀ k, k ≠ key d → images w' !! k = images w !! k)
  ∧ currentStep (clickNext w') = currentStep w + 1.
Proof.
  intros Hd Hl w'.
  assert (M : mounted w = true) by (unfold mounted; by rewrite Hd).
  pose proof (mounted_range w M) as R.
  unfold isLastStep in Hl. change (Z.of_nat (length steps) - 1) with 3 in Hl.
  apply Z.eqb_neq in Hl.
  assert (Hd' : currentStepData w' = Some d) by exact Hd.
  assert (C : isCurrentStepComplete w' = true).
  { unfold isCurrentStepComplete. rewrite Hd'. unfold uploaded, w'.
    unfold toBlob_callback, createObjectURL. simpl.
    by rewrite lookup_insert_eq. }
  split; [reflexivity|].
  split; [unfold cropperVisible; simpl; by rewrite andb_false_r|].
  split; [exact C|]. split.
  - intros k Hk. unfold w', toBlob_callback, createObjectURL. simpl.
    by rewrite lookup_insert_ne.
  - unfold clickNext, click, nextDisabled, mounted. rewrite Hd', C.
    unfold isLastStep, handleNext.
    change (Z.of_nat (length steps) - 1) with 3.
    change (currentStep w') with (currentStep w).
    rewrite (proj2 (Z.eqb_neq _ _) Hl). simpl.
    by rewrite (proj2 (Z.ltb_lt _ _)) by lia.
Qed.

Lemma commit_enables_next_witness :
  currentStep cropping = 0
  ∧ currentStep (clickNext (run plainNumber [ClickDone true; BlobReady] cropping))
    = 1.
Proof.
  split; [reflexivity|].
  destruct (commit_enables_next
              (setEncoders [] (step plainNumber cropping (ClickDone true)))
              {| key := "front"; label := "Upload Front of Card";
                 step_description := "Take a clear photo of the front side" |}
              {| blob_body :=
                   Bitmap 1000 500
                     [{| draw_image := photo;
                         draw_sx := (0 * (2000 / 1000))%Q;
                         draw_sy := (0 * (1000 / 500))%Q;
                         draw_sw := (1000 * (2000 / 1000))%Q;
                         draw_sh := (500 * (1000 / 500))%Q;
                         draw_dx := 0%Q; draw_dy := 0%Q;
                         draw_dw := 1000%Q; draw_dh := 500%Q |}];
                 blob_type := "image/jpeg" |}
              eq_refl eq_refl)
    as (_ & _ & _ & _ & H).
  exact H.
Defined.

(** ** File selection, further *)

(** X14.  An image file changes nothing on screen when it is picked: it
    is only handed to a FileReader.  When the read completes the crop
    modal opens on the data URL, pending for the step that was current at
    the time of the pick; slots and step are untouched, the picked file
    itself is kept nowhere in the state, and a selection completed in an
    earlier crop is still in place. *)
Theorem image_file_opens_cropper (N : Q → string) (w : World) (d : Step)
    (f : File) (rest : list File) (res : string) :
  currentStepData w = Some d → startsWith (file_type f) "image/" = true →
  readers w = [] →
  let w1 := step N w (SelectFile (Some (f :: rest))) in
  let w2 := step N w1 (ReaderLoad res) in
  w1 = setReaders [(key d, f)] w
  ∧ showCropper w2 = true ∧ cropImageSrc w2 = Some res
  ∧ pendingStepKey w2 = Some (key d)
  ∧ cropperVisible w2 = negb (String.eqb res "")
  ∧ images w2 = images w ∧ currentStep w2 = currentStep w
  ∧ toasts w2 = toasts w ∧ readers w2 = []
  ∧ completedCrop w2 = completedCrop w.
Proof.
  intros Hd Hf Hr w1 w2.
  assert (E1 : w1 = setReaders [(key d, f)] w).
  { unfold w1. simpl. unfold selectFile, handleFileSelect. rewrite Hd. simpl.
    by rewrite Hf, Hr. }
  split; [exact E1|]. unfold w2. rewrite E1. simpl.
  repeat (split; [reflexivity|]).
  split; [|done].
  unfold cropperVisible, mounted, reader_onload. simpl.
  change (currentStepData _) with (currentStepData w). by rewrite Hd.
Qed.

Lemma image_file_opens_cropper_witness :
  cropperVisible
    (run plainNumber
       [SelectFile (Some [jpeg]); ReaderLoad "data:image/jpeg;base64,AA"]
       initial) = true.
Proof.
  destruct (image_file_opens_cropper plainNumber initial
              {| key := "front"; label := "Upload Front of Card";
                 step_description := "Take a clear photo of the front side" |}
              jpeg [] "data:image/jpeg;base64,AA" eq_refl eq_refl eq_refl)
    as (_ & _ & _ & _ & H & _).
  exact H.
Defined.

(** ** Progress indicator *)

(** X16.  The "n% Complete" figure depends on the step index alone: in
    every reachable state it is 25 times the step number, so 25, 50, 75
    or 100, and it reads 100 on the last step whether or not that step's
    photo was taken. *)
Theorem progress_follows_step (N : Q → string) (es : list Event) :
  progressPercent (run N es initial)
  = 25 * (currentStep (run N es initial) + 1)
  ∧ 25 ≤ progressPercent (run N es initial) ≤ 100
  ∧ (isLastStep (run N es initial) = true ↔
     progressPercent (run N es initial) = 100).
Proof.
  destruct (run_invariant N _ (step_keeps_earlier N) es initial initial_earlier)
    as [R _].
  generalize dependent (run N es initial). intros w R.
  unfold progressPercent, isLastStep.
  change (Z.of_nat (length steps) - 1) with 3.
  assert (H : currentStep w = 0 ∨ currentStep w = 1 ∨ currentStep w = 2
              ∨ currentStep w = 3) by lia.
  destruct H as [->|[->|[->| ->]]]; vm_compute; repeat split; congruence.
Qed.

Lemma progress_follows_step_witness :
  isLastStep filled = true ∧ progressPercent filled = 100.
Proof.
  split; [reflexivity|].
  by apply (progress_follows_step plainNumber fourCaptures).
Defined.

(** ** The result panel *)

(** X17.  A result on display, and the loading flag, are written only by
    Appraise, by the settling of a request and by Reset.  Picking files,
    cropping, committing and navigating leave them alone, so after a photo
    is retaken the panel still shows the appraisal of the earlier set. *)
Theorem result_survives_retakes (N : Q → string) (w : World) (e : Event) :
  touchesResult e = false →
  result (step N w e) = result w ∧ isLoading (step N w e) = isLoading w.
Proof.
  destruct e; simpl; try done; intros _.
  - unfold selectFile, handleFileSelect. by repeat case_match.
  - by destruct (readers w) as [|[k f] rest].
  - by case_match.
  - by case_match.
  - by case_match.
  - unfold clickCancel, click. by case_match.
  - unfold clickDone, click, handleCropDone. by repeat case_match.
  - destruct (encoders w) as [|[k [b|]] rest]; done.
  - by destruct (clickPrevious_cases w) as [->|[_ ->]].
  - by destruct (clickNext_cases w) as [->|(d & _ & _ & _ & ->)].
Qed.

Lemma result_survives_retakes_witness :
  result (run plainNumber capture appraised) = Some sampleResult
  ∧ result (step plainNumber appraised BlobReady) = result appraised.
Proof.
  split; [reflexivity|].
  by apply (result_survives_retakes plainNumber appraised BlobReady).
Defined.
